(** * gas-deliver-client: session lifecycle, API client and order composer

    A shallow embedding of the client-side logic of the gas delivery app:

    - [Api]         services/api.ts         (types, [request], [createOrder])
    - [PlaceOrder]  app/place-order.tsx     (cart, pricing, submission gate)
    - [AuthContext] contexts/AuthContext.tsx (storage adapter, session manager)

    Conventions.  JavaScript [number]s that hold counts and UGX amounts
    (quantity, stockQuantity, price, HTTP status) are integers and are
    modelled as [Z]; coordinates and weights are binary64 values and are
    modelled with the primitive floats of the standard library, whose
    comparisons are the IEEE ones JavaScript uses.  Strings are sequences of
    8-bit code units.  A rejected promise and a [throw] are the same thing
    in an [async] function, so both are the [Threw] result. *)

From Stdlib Require Import ZArith String Ascii List Floats Lia Bool.
From stdpp Require Import gmap strings pretty.
Import ListNotations.

Local Open Scope Z_scope.

(** ** JavaScript values shared by the three files *)

Module JS.

(** What [throw] carries: an [Error] with its optional [message]. *)
Record Error := mkError { message : option string }.

Definition newError (msg : string) : Error := mkError (Some msg).

(** The result of running a (possibly async) function body. *)
Inductive Result (A : Type) :=
| Returned (a : A)
| Threw (e : Error).
Arguments Returned {A} a.
Arguments Threw {A} e.

(** Truthiness of a string: only the empty string is falsy. *)
Definition truthy_string (s : string) : bool :=
  match s with
  | EmptyString => false
  | String _ _ => true
  end.

(** Truthiness of [string | null | undefined]. *)
Definition truthy_opt (o : option string) : bool :=
  match o with
  | Some s => truthy_string s
  | None => false
  end.

(** [x || fallback] for [x : string | undefined]. *)
Definition or_else (x : option string) (fallback : string) : string :=
  match x with
  | Some s => if truthy_string s then s else fallback
  | None => fallback
  end.

(** White space and line terminators that [String.prototype.trim]
    strips, among the code units below 256: TAB, LF, VT, FF, CR, SP and
    NBSP. *)
Definition is_space (c : ascii) : bool :=
  let n := N_of_ascii c in
  ((9 <=? n)%N && (n <=? 13)%N) || (n =? 32)%N || (n =? 160)%N.

Fixpoint trimStart (s : string) : string :=
  match s with
  | EmptyString => EmptyString
  | String c rest => if is_space c then trimStart rest else s
  end.

(** Drops the trailing white space: a character is kept when something
    that is kept follows it, or when it is not a space itself. *)
Fixpoint trimEnd (s : string) : string :=
  match s with
  | EmptyString => EmptyString
  | String c rest =>
      match trimEnd rest with
      | EmptyString => if is_space c then EmptyString else String c EmptyString
      | kept => String c kept
      end
  end.

Definition trim (s : string) : string := trimEnd (trimStart s).

End JS.

Export JS(Returned, Threw).

(** ** services/api.ts: the data model *)

Module Api.

Inductive Role := customer | driver | admin.

(** The string a role is at run time. *)
Definition roleName (r : Role) : string :=
  match r with
  | customer => "customer"
  | driver => "driver"
  | admin => "admin"
  end.

Module User.
Record t := mk {
  id : string;
  email : string;
  firstName : string;
  lastName : string;
  phone : string;
  role : Role;
  address : option string;
  latitude : option float;
  longitude : option float;
  isActive : bool;
  createdAt : string
}.
End User.

(** [Partial<User>] *)
Record UserPatch := mkUserPatch {
  patch_id : option string;
  patch_email : option string;
  patch_firstName : option string;
  patch_lastName : option string;
  patch_phone : option string;
  patch_role : option Role;
  patch_address : option string;
  patch_latitude : option float;
  patch_longitude : option float;
  patch_isActive : option bool;
  patch_createdAt : option string
}.

Record LoginCredentials := mkLoginCredentials {
  login_email : string;
  login_password : string
}.

Record RegisterData := mkRegisterData {
  reg_email : string;
  reg_password : string;
  reg_firstName : string;
  reg_lastName : string;
  reg_phone : string;
  reg_role : option Role;
  reg_address : option string;
  reg_latitude : option float;
  reg_longitude : option float
}.

Record AuthResponse := mkAuthResponse {
  auth_message : string;
  token : string;
  user : User.t
}.

Record UpdatePasswordData := mkUpdatePasswordData {
  currentPassword : string;
  newPassword : string
}.

Record Supplier := mkSupplier {
  supplier_id : string;
  supplier_name : string
}.

Module GasCylinder.
Record t := mk {
  id : string;
  name : string;
  weight : float;
  price : Z;
  description : option string;
  brand : option string;
  stockQuantity : Z;
  isAvailable : bool;
  imageUrl : option string;
  supplier : option Supplier;
  createdAt : option string;
  updatedAt : option string
}.
End GasCylinder.

(** [Omit<GasCylinder, 'id' | 'createdAt' | 'updatedAt'>] *)
Record NewGasCylinder := mkNewGasCylinder {
  new_name : string;
  new_weight : float;
  new_price : Z;
  new_description : option string;
  new_brand : option string;
  new_stockQuantity : Z;
  new_isAvailable : bool;
  new_imageUrl : option string;
  new_supplier : option Supplier
}.

(** [Partial<GasCylinder>] *)
Record GasCylinderPatch := mkGasCylinderPatch {
  cyl_id : option string;
  cyl_name : option string;
  cyl_weight : option float;
  cyl_price : option Z;
  cyl_description : option string;
  cyl_brand : option string;
  cyl_stockQuantity : option Z;
  cyl_isAvailable : option bool;
  cyl_imageUrl : option string;
  cyl_supplier : option Supplier;
  cyl_createdAt : option string;
  cyl_updatedAt : option string
}.

Record OrderItemPayload := mkOrderItemPayload {
  cylinderId : string;
  item_quantity : Z
}.

(** [items] is declared as an array, but [createOrder] still tests it for
    being absent, so the field is optional here. *)
Record CreateOrderPayload := mkCreateOrderPayload {
  customerId : string;
  items : option (list OrderItemPayload);
  deliveryAddress : string;
  deliveryLatitude : float;
  deliveryLongitude : float;
  specialInstructions : option string
}.

Inductive OrderStatus :=
| PENDING | CONFIRMED | ASSIGNED | IN_TRANSIT | DELIVERED | CANCELLED.

Inductive PaymentStatus :=
| PAYMENT_PENDING | PAID | FAILED | REFUNDED.

Record UpdateOrderPayload := mkUpdateOrderPayload {
  upd_status : option OrderStatus;
  upd_paymentStatus : option PaymentStatus;
  upd_driverId : option string;
  upd_deliveryAddress : option string;
  upd_deliveryLatitude : option float;
  upd_deliveryLongitude : option float;
  upd_specialInstructions : option string;
  upd_estimatedDeliveryTime : option string;
  upd_actualDeliveryTime : option string
}.

(** A value of a query parameter: the filters are strings, [page] and
    [limit] numbers. *)
Inductive QueryValue :=
| QString (s : string)
| QNumber (n : Z).

(** A params object ([OrderQueryParams], [Record<string, any>]) as
    [Object.entries] lists it: the properties in insertion order, [None]
    for one that is [undefined] or [null]. *)
Definition QueryParams : Type := list (string * option QueryValue).

Definition sampleUser : User.t :=
  User.mk "u1" "amina@example.com" "Amina" "Okello" "+256700000000" customer
          (Some "Plot 1, Kampala Road") None None true "2024-01-01T00:00:00Z".

(** *** Decoded response bodies

    What [response.json()] resolves to.  Numbers in bodies are taken to
    be integers. *)
#[local] Unset Elimination Schemes.
Inductive Json :=
| JNull
| JBool (b : bool)
| JNumber (n : Z)
| JString (s : string)
| JArray (elements : list Json)
| JObject (fields : list (string * Json)).
#[local] Set Elimination Schemes.

Definition truthy (v : Json) : bool :=
  match v with
  | JNull => false
  | JBool b => b
  | JNumber n => negb (n =? 0)
  | JString s => JS.truthy_string s
  | JArray _ | JObject _ => true
  end.

(** [String(v)], which is what [new Error(v)] stores as the message. *)
Fixpoint toString (v : Json) : string :=
  match v with
  | JNull => "null"
  | JBool true => "true"
  | JBool false => "false"
  | JNumber n => pretty n
  | JString s => s
  | JArray elements =>
      (fix join (l : list Json) : string :=
         match l with
         | [] => ""
         | x :: rest =>
             let shown := match x with JNull => "" | _ => toString x end in
             match rest with
             | [] => shown
             | _ :: _ => shown +:+ "," +:+ join rest
             end
         end) elements
  | JObject _ => "[object Object]"
  end.

Fixpoint assoc (key : string) (fields : list (string * Json)) : option Json :=
  match fields with
  | [] => None
  | (k, v) :: rest => if String.eqb k key then Some v else assoc key rest
  end.

(** The engine's error for reading a property of [null]; its text is the
    engine's business. *)
Definition nullPropertyError : JS.Error :=
  JS.newError "Cannot read property of null".

(** [data.key] for one of the keys [request] reads ([error], [message]),
    which no primitive or array defines: [None] is [undefined]. *)
Definition property (data : Json) (key : string) : JS.Result (option Json) :=
  match data with
  | JNull => Threw nullPropertyError
  | JObject fields => Returned (assoc key fields)
  | JBool _ | JNumber _ | JString _ | JArray _ => Returned None
  end.

(** An operand [p] of [p || ...] inside [new Error(...)]: the message it
    yields when it is truthy, [None] when the next operand is taken. *)
Definition operand (p : option Json) : option string :=
  match p with
  | Some v => if truthy v then Some (toString v) else None
  | None => None
  end.


(** *** The transport *)

Definition API_BASE_URL : string := "https://gas.bxmedia.pro/api".

(** [RequestInit], as far as the client fills it in. *)
Record RequestInit := mkRequestInit {
  method : option string;
  headers : gmap string string;
  body : option string
}.

(** One call of [fetch(url, config)]. *)
Record FetchCall := mkFetchCall {
  url : string;
  config : RequestInit
}.

(** What [fetch] resolves to: the status, and what [response.json()]
    would give if it were called. *)
Record Response := mkResponse {
  status : Z;
  json : JS.Result Json
}.

(** [response.ok] *)
Definition ok (r : Response) : bool := (200 <=? status r) && (status r <=? 299).

Definition bearer (token : string) : gmap string string :=
  {[ "Authorization" := "Bearer " +:+ token ]}.

(** A client computation threads the list of the [fetch] calls made so
    far (latest first). *)
Definition Client (A : Type) : Type :=
  list FetchCall -> JS.Result A * list FetchCall.

(** The [url] and [config] that [request] hands to [fetch]: the defaults
    carry a Content-Type only when there is a body, and the caller's
    headers go over them. *)
Definition fetchCall (endpoint : string) (options : RequestInit) : FetchCall :=
  let defaultHeaders : gmap string string :=
    if JS.truthy_opt (body options)
    then {[ "Content-Type" := "application/json" ]}
    else ∅ in
  let config :=
    mkRequestInit (method options) (headers options ∪ defaultHeaders)
                  (body options) in
  mkFetchCall (API_BASE_URL +:+ endpoint) config.

(** What the methods pass to [JSON.stringify]. *)
Inductive Payload :=
| CredentialsPayload (credentials : LoginCredentials)
| RegisterPayload (userData : RegisterData)
| UserPatchPayload (userData : UserPatch)
| PasswordPayload (passwordData : UpdatePasswordData)
| NewCylinderPayload (cylinderData : NewGasCylinder)
| CylinderPatchPayload (cylinderData : GasCylinderPatch)
| OrderPayload (orderData : CreateOrderPayload)
| OrderUpdatePayload (orderData : UpdateOrderPayload)
| StatusPayload (status : OrderStatus)
| PaymentStatusPayload (paymentStatus : PaymentStatus)
| DriverPayload (driverId : string).

Section Client.
(** The network: what [fetch] does with a call ([Threw] is a
    network-level failure). *)
Variable fetch : FetchCall -> JS.Result Response.
Variable JSON_stringify : Payload -> string.
(** [new URLSearchParams()], filled by [append], then [toString()]. *)
Variable URLSearchParams_toString : list (string * string) -> string.

Definition request (endpoint : string) (options : RequestInit) : Client Json :=
  fun sent =>
    let c := fetchCall endpoint options in
    let sent := c :: sent in
    match fetch c with
    | Threw e => (Threw e, sent)
    | Returned response =>
        if status response =? 204 then (Returned (JObject []), sent)
        else
          match json response with
          | Threw e => (Threw e, sent)
          | Returned data =>
              if negb (ok response) then
                match property data "error" with
                | Threw e => (Threw e, sent)
                | Returned err =>
                    match operand err with
                    | Some text => (Threw (JS.newError text), sent)
                    | None =>
                        match property data "message" with
                        | Threw e => (Threw e, sent)
                        | Returned msg =>
                            match operand msg with
                            | Some text => (Threw (JS.newError text), sent)
                            | None =>
                                (Threw (JS.newError
                                          ("HTTP error! status: "
                                           +:+ pretty (status response))),
                                 sent)
                            end
                        end
                    end
                end
              else (Returned data, sent)
          end
    end.

(** The entries [buildQueryString] appends: those that are not
    [undefined], [null] or the empty string, with [value.toString()]. *)
Definition appended (entry : string * option QueryValue) : option (string * string) :=
  match entry with
  | (key, Some (QString value)) =>
      if JS.truthy_string value then Some (key, value) else None
  | (key, Some (QNumber value)) => Some (key, pretty value)
  | (_, None) => None
  end.

Definition buildQueryString (params : QueryParams) : string :=
  let queryString := URLSearchParams_toString (omap appended params) in
  if JS.truthy_string queryString then "?" +:+ queryString else "".

(** [params ? this.buildQueryString(params) : ''] *)
Definition optionalQuery (params : option QueryParams) : string :=
  match params with
  | Some p => buildQueryString p
  | None => ""
  end.

(** The headers of the two methods whose token is optional. *)
Definition optionalBearer (token : option string) : gmap string string :=
  match token with
  | Some t => if JS.truthy_string t then bearer t else ∅
  | None => ∅
  end.

(** [{ method, headers: { Authorization }, body? }] *)
Definition authorized (verb token : string) (body : option Payload) : RequestInit :=
  mkRequestInit (Some verb) (bearer token) (JSON_stringify <$> body).

(** Auth endpoints *)

Definition login (credentials : LoginCredentials) : Client Json :=
  request "/auth/login"
          (mkRequestInit (Some "POST") ∅
                         (Some (JSON_stringify (CredentialsPayload credentials)))).

Definition register (userData : RegisterData) : Client Json :=
  request "/auth/register"
          (mkRequestInit (Some "POST") ∅
                         (Some (JSON_stringify (RegisterPayload userData)))).

Definition verifyToken (token : string) : Client Json :=
  request "/auth/verify" (authorized "GET" token None).

Definition logout (token : string) : Client Json :=
  request "/auth/logout" (authorized "POST" token None).

Definition refreshToken (token : string) : Client Json :=
  request "/auth/refresh" (authorized "POST" token None).

(** User endpoints *)

Definition getAllUsers (token : string) : Client Json :=
  request "/users" (authorized "GET" token None).

Definition getUserById (id token : string) : Client Json :=
  request ("/users/" +:+ id) (authorized "GET" token None).

Definition createUser (userData : RegisterData) : Client Json :=
  request "/users"
          (mkRequestInit (Some "POST") ∅
                         (Some (JSON_stringify (RegisterPayload userData)))).

Definition updateUser (id : string) (userData : UserPatch) (token : string) : Client Json :=
  request ("/users/" +:+ id) (authorized "PUT" token (Some (UserPatchPayload userData))).

Definition updatePassword (id : string) (passwordData : UpdatePasswordData)
    (token : string) : Client Json :=
  request ("/users/" +:+ id +:+ "/password")
          (authorized "PATCH" token (Some (PasswordPayload passwordData))).

Definition deleteUser (id token : string) : Client Json :=
  request ("/users/" +:+ id) (authorized "DELETE" token None).

Definition getUsersByRole (role : Role) (token : string) : Client Json :=
  request ("/users/role/" +:+ roleName role) (authorized "GET" token None).

(** Gas cylinder endpoints *)

Definition getAllGasCylinders (token : option string) : Client Json :=
  request "/gas-cylinders" (mkRequestInit (Some "GET") (optionalBearer token) None).

Definition getGasCylinderById (id : string) (token : option string) : Client Json :=
  request ("/gas-cylinders/" +:+ id)
          (mkRequestInit (Some "GET") (optionalBearer token) None).

Definition createGasCylinder (cylinderData : NewGasCylinder) (token : string) : Client Json :=
  request "/gas-cylinders"
          (authorized "POST" token (Some (NewCylinderPayload cylinderData))).

Definition updateGasCylinder (id : string) (cylinderData : GasCylinderPatch)
    (token : string) : Client Json :=
  request ("/gas-cylinders/" +:+ id)
          (authorized "PUT" token (Some (CylinderPatchPayload cylinderData))).

Definition deleteGasCylinder (id token : string) : Client Json :=
  request ("/gas-cylinders/" +:+ id) (authorized "DELETE" token None).

(** Order endpoints *)

Definition createOrder (orderData : CreateOrderPayload) (token : string) : Client Json :=
  fun sent =>
    if negb (JS.truthy_string (customerId orderData))
    then (Threw (JS.newError "Customer ID is required"), sent)
    else
      if match items orderData with
         | None => true
         | Some l => (Z.of_nat (length l) =? 0)
         end
      then (Threw (JS.newError "Order items are required"), sent)
      else
        if negb (JS.truthy_string (deliveryAddress orderData))
        then (Threw (JS.newError "Delivery address is required"), sent)
        else
          let requestBody := JSON_stringify (OrderPayload orderData) in
          request "/orders"
                  (mkRequestInit (Some "POST")
                     (<[ "Content-Type" := "application/json" ]> (bearer token))
                     (Some requestBody))
                  sent.

Definition getAllOrders (token : string) (params : option QueryParams) : Client Json :=
  request ("/orders" +:+ optionalQuery params) (authorized "GET" token None).

Definition getOrderById (id token : string) : Client Json :=
  request ("/orders/" +:+ id) (authorized "GET" token None).

Definition getOrderByNumber (orderNumber token : string) : Client Json :=
  request ("/orders/number/" +:+ orderNumber) (authorized "GET" token None).

Definition updateOrder (id : string) (orderData : UpdateOrderPayload)
    (token : string) : Client Json :=
  request ("/orders/" +:+ id)
          (authorized "PUT" token (Some (OrderUpdatePayload orderData))).

Definition updateOrderStatus (id : string) (status : OrderStatus)
    (token : string) : Client Json :=
  request ("/orders/" +:+ id +:+ "/status")
          (authorized "PATCH" token (Some (StatusPayload status))).

Definition updatePaymentStatus (id : string) (paymentStatus : PaymentStatus)
    (token : string) : Client Json :=
  request ("/orders/" +:+ id +:+ "/payment-status")
          (authorized "PATCH" token (Some (PaymentStatusPayload paymentStatus))).

Definition assignOrderToDriver (orderId driverId token : string) : Client Json :=
  request ("/orders/" +:+ orderId +:+ "/assign")
          (authorized "PATCH" token (Some (DriverPayload driverId))).

Definition cancelOrder (id token : string) : Client Json :=
  request ("/orders/" +:+ id +:+ "/cancel") (authorized "PATCH" token None).

Definition deleteOrder (id token : string) : Client Json :=
  request ("/orders/" +:+ id) (authorized "DELETE" token None).

Definition getCustomerOrders (customerId token : string)
    (params : option QueryParams) : Client Json :=
  request ("/orders/customer/" +:+ customerId +:+ optionalQuery params)
          (authorized "GET" token None).

Definition getDriverOrders (driverId token : string)
    (params : option QueryParams) : Client Json :=
  request ("/orders/driver/" +:+ driverId +:+ optionalQuery params)
          (authorized "GET" token None).

Definition getAvailableOrders (token : string) (params : option QueryParams) : Client Json :=
  request ("/orders/available" +:+ optionalQuery params) (authorized "GET" token None).

Definition getOrderStatistics (token : string) (startDate endDate : option string)
  : Client Json :=
  let params : QueryParams :=
    (if JS.truthy_opt startDate then [("startDate", QString <$> startDate)] else [])
    ++ (if JS.truthy_opt endDate then [("endDate", QString <$> endDate)] else []) in
  request ("/orders/statistics" +:+ buildQueryString params)
          (authorized "GET" token None).

Definition healthCheck : Client Json :=
  request "/health" (mkRequestInit (Some "GET") ∅ None).

(** The public methods of [ApiService]. *)
Inductive Method :=
| login_ (credentials : LoginCredentials)
| register_ (userData : RegisterData)
| verifyToken_ (token : string)
| logout_ (token : string)
| refreshToken_ (token : string)
| getAllUsers_ (token : string)
| getUserById_ (id token : string)
| createUser_ (userData : RegisterData)
| updateUser_ (id : string) (userData : UserPatch) (token : string)
| updatePassword_ (id : string) (passwordData : UpdatePasswordData) (token : string)
| deleteUser_ (id token : string)
| getUsersByRole_ (role : Role) (token : string)
| getAllGasCylinders_ (token : option string)
| getGasCylinderById_ (id : string) (token : option string)
| createGasCylinder_ (cylinderData : NewGasCylinder) (token : string)
| updateGasCylinder_ (id : string) (cylinderData : GasCylinderPatch) (token : string)
| deleteGasCylinder_ (id token : string)
| createOrder_ (orderData : CreateOrderPayload) (token : string)
| getAllOrders_ (token : string) (params : option QueryParams)
| getOrderById_ (id token : string)
| getOrderByNumber_ (orderNumber token : string)
| updateOrder_ (id : string) (orderData : UpdateOrderPayload) (token : string)
| updateOrderStatus_ (id : string) (status : OrderStatus) (token : string)
| updatePaymentStatus_ (id : string) (paymentStatus : PaymentStatus) (token : string)
| assignOrderToDriver_ (orderId driverId token : string)
| cancelOrder_ (id token : string)
| deleteOrder_ (id token : string)
| getCustomerOrders_ (customerId token : string) (params : option QueryParams)
| getDriverOrders_ (driverId token : string) (params : option QueryParams)
| getAvailableOrders_ (token : string) (params : option QueryParams)
| getOrderStatistics_ (token : string) (startDate endDate : option string)
| healthCheck_.

Definition invoke (m : Method) : Client Json :=
  match m with
  | login_ credentials => login credentials
  | register_ userData => register userData
  | verifyToken_ token => verifyToken token
  | logout_ token => logout token
  | refreshToken_ token => refreshToken token
  | getAllUsers_ token => getAllUsers token
  | getUserById_ id token => getUserById id token
  | createUser_ userData => createUser userData
  | updateUser_ id userData token => updateUser id userData token
  | updatePassword_ id passwordData token => updatePassword id passwordData token
  | deleteUser_ id token => deleteUser id token
  | getUsersByRole_ role token => getUsersByRole role token
  | getAllGasCylinders_ token => getAllGasCylinders token
  | getGasCylinderById_ id token => getGasCylinderById id token
  | createGasCylinder_ cylinderData token => createGasCylinder cylinderData token
  | updateGasCylinder_ id cylinderData token => updateGasCylinder id cylinderData token
  | deleteGasCylinder_ id token => deleteGasCylinder id token
  | createOrder_ orderData token => createOrder orderData token
  | getAllOrders_ token params => getAllOrders token params
  | getOrderById_ id token => getOrderById id token
  | getOrderByNumber_ orderNumber token => getOrderByNumber orderNumber token
  | updateOrder_ id orderData token => updateOrder id orderData token
  | updateOrderStatus_ id status token => updateOrderStatus id status token
  | updatePaymentStatus_ id paymentStatus token =>
      updatePaymentStatus id paymentStatus token
  | assignOrderToDriver_ orderId driverId token =>
      assignOrderToDriver orderId driverId token
  | cancelOrder_ id token => cancelOrder id token
  | deleteOrder_ id token => deleteOrder id token
  | getCustomerOrders_ customerId token params =>
      getCustomerOrders customerId token params
  | getDriverOrders_ driverId token params => getDriverOrders driverId token params
  | getAvailableOrders_ token params => getAvailableOrders token params
  | getOrderStatistics_ token startDate endDate =>
      getOrderStatistics token startDate endDate
  | healthCheck_ => healthCheck
  end.

End Client.

(** The call [createOrder] makes once its checks have passed. *)
Definition orderCall (JSON_stringify : Payload -> string)
    (orderData : CreateOrderPayload) (token : string) : FetchCall :=
  fetchCall "/orders"
            (mkRequestInit (Some "POST")
               (<[ "Content-Type" := "application/json" ]> (bearer token))
               (Some (JSON_stringify (OrderPayload orderData)))).

(** Orders as the server returns them. *)
Module OrderItem.
Record t := mk {
  id : string;
  quantity : Z;
  unitPrice : Z;
  totalPrice : Z;
  gasCylinder : GasCylinder.t
}.
End OrderItem.

Module Order.
Record t := mk {
  id : string;
  orderNumber : string;
  customer : User.t;
  driver : option User.t;
  status : OrderStatus;
  paymentStatus : PaymentStatus;
  totalAmount : Z;
  deliveryFee : Z;
  deliveryAddress : string;
  deliveryLatitude : float;
  deliveryLongitude : float;
  specialInstructions : option string;
  estimatedDeliveryTime : option string;
  actualDeliveryTime : option string;
  items : list OrderItem.t;
  createdAt : string;
  updatedAt : string
}.
End Order.

Record Pagination := mkPagination {
  pagination_page : Z;
  pagination_limit : Z;
  pagination_total : Z;
  pagination_totalPages : Z
}.

Record PaginatedResponse (T : Type) := mkPaginatedResponse {
  data : list T;
  pagination : Pagination
}.
Arguments mkPaginatedResponse {T} data pagination.
Arguments data {T} p.
Arguments pagination {T} p.

(** The token a method is given to authorize itself with, if any: the
    mandatory [token] argument, or the optional one when it is truthy. *)
Definition tokenOf (m : Method) : option string :=
  match m with
  | login_ _ | register_ _ | createUser_ _ | healthCheck_ => None
  | getAllGasCylinders_ token | getGasCylinderById_ _ token =>
      match token with
      | Some t => if JS.truthy_string t then Some t else None
      | None => None
      end
  | verifyToken_ token | logout_ token | refreshToken_ token
  | getAllUsers_ token | getUserById_ _ token
  | updateUser_ _ _ token | updatePassword_ _ _ token | deleteUser_ _ token
  | getUsersByRole_ _ token
  | createGasCylinder_ _ token | updateGasCylinder_ _ _ token
  | deleteGasCylinder_ _ token
  | createOrder_ _ token | getAllOrders_ token _ | getOrderById_ _ token
  | getOrderByNumber_ _ token | updateOrder_ _ _ token
  | updateOrderStatus_ _ _ token | updatePaymentStatus_ _ _ token
  | assignOrderToDriver_ _ _ token | cancelOrder_ _ token | deleteOrder_ _ token
  | getCustomerOrders_ _ token _ | getDriverOrders_ _ token _
  | getAvailableOrders_ token _ | getOrderStatistics_ token _ _ => Some token
  end.

(** A network that answers every call with the given status and body. *)
Definition answering (status : Z) (json : JS.Result Json) : FetchCall -> JS.Result Response :=
  fun _ => Returned (mkResponse status json).

Definition sampleOrder : CreateOrderPayload :=
  mkCreateOrderPayload "u1" (Some [mkOrderItemPayload "a" 2])
                       "Plot 1, Kampala Road" 0%float 32%float None.

End Api.

(** ** app/place-order.tsx: the cart *)

Module PlaceOrder.
Import Api.

(** [interface CartItem extends GasCylinder { quantity: number }]: the
    cylinder's fields as they were when the item was created, and the
    quantity. *)
Record CartItem := mkCartItem {
  cylinder : GasCylinder.t;
  quantity : Z
}.

Definition item_id (item : CartItem) : string := GasCylinder.id (cylinder item).
Definition item_stock (item : CartItem) : Z :=
  GasCylinder.stockQuantity (cylinder item).
Definition item_price (item : CartItem) : Z := GasCylinder.price (cylinder item).

(** [{ ...item, quantity: q }] *)
Definition with_quantity (item : CartItem) (q : Z) : CartItem :=
  mkCartItem (cylinder item) q.

(** [Alert.alert(title, message)] *)
Record Alert := mkAlert { title : string; body : string }.

Definition stockLimit (n : Z) : Alert :=
  mkAlert "Stock Limit" ("Only " +:+ pretty n +:+ " available").

Definition DELIVERY_FEE : Z := 5000.

(** The state updater of [addToCart]: the next cart, and the alerts it
    raised. *)
Definition addToCart (cylinder : GasCylinder.t) (prev : list CartItem)
  : list CartItem * list Alert :=
  match find (fun item => String.eqb (item_id item) (GasCylinder.id cylinder)) prev with
  | Some existing =>
      if quantity existing >=? GasCylinder.stockQuantity cylinder
      then (prev, [stockLimit (GasCylinder.stockQuantity cylinder)])
      else (map (fun item =>
                   if String.eqb (item_id item) (GasCylinder.id cylinder)
                   then with_quantity item (quantity item + 1)
                   else item) prev, [])
  | None => (prev ++ [mkCartItem cylinder 1], [])
  end.

(** The callback of [.map] in [updateQuantity]: [None] is the [null] that
    [.filter(Boolean)] drops. *)
Definition updateItem (id : string) (change : Z) (item : CartItem)
  : option CartItem * list Alert :=
  if String.eqb (item_id item) id then
    let newQuantity := quantity item + change in
    if newQuantity <=? 0 then (None, [])
    else if newQuantity >? item_stock item
         then (Some item, [stockLimit (item_stock item)])
         else (Some (with_quantity item newQuantity), [])
  else (Some item, []).

Definition updateQuantity (id : string) (change : Z) (prev : list CartItem)
  : list CartItem * list Alert :=
  let mapped := map (updateItem id change) prev in
  (omap fst mapped, concat (map snd mapped)).

(** [cart.reduce((sum, item) => sum + (item.price * item.quantity), 0)] *)
Definition subtotal (cart : list CartItem) : Z :=
  fold_left (fun sum item => sum + item_price item * quantity item) cart 0.

Definition total (cart : list CartItem) : Z := subtotal cart + DELIVERY_FEE.

(** The sum of the spec's pricing rule, written as a recursion over the
    items; [subtotal] is compared with it. *)
Fixpoint sum_price_times_quantity (cart : list CartItem) : Z :=
  match cart with
  | [] => 0
  | item :: rest => item_price item * quantity item + sum_price_times_quantity rest
  end.

(** A session of the screen: the calls made on the cart, in order. *)
Inductive CartCall :=
| AddToCart (cylinder : GasCylinder.t)
| UpdateQuantity (id : string) (change : Z).

Definition call (cart : list CartItem) (c : CartCall) : list CartItem :=
  match c with
  | AddToCart cylinder => fst (addToCart cylinder cart)
  | UpdateQuantity id change => fst (updateQuantity id change cart)
  end.

Definition calls (cs : list CartCall) (cart : list CartItem) : list CartItem :=
  fold_left call cs cart.

(** The cylinders handed to [addToCart] during a session. *)
Fixpoint added (cs : list CartCall) : list GasCylinder.t :=
  match cs with
  | [] => []
  | AddToCart c :: rest => c :: added rest
  | UpdateQuantity _ _ :: rest => added rest
  end.

Definition quantity_in_range (item : CartItem) : Prop :=
  1 <= quantity item <= item_stock item.

(** A cart whose items are distinct by id, were made from the cylinders
    on offer, and hold a quantity between 1 and their stock. *)
Definition well_formed (offered : list GasCylinder.t) (cart : list CartItem) : Prop :=
  List.NoDup (map item_id cart)
  /\ Forall (fun item => In (cylinder item) offered /\ quantity_in_range item) cart.

(** A cart whose items are distinct by id, were made from the cylinders
    handed over, and hold a quantity of at least 1. *)
Definition listed (handed : list GasCylinder.t) (cart : list CartItem) : Prop :=
  List.NoDup (map item_id cart)
  /\ Forall (fun item => In (cylinder item) handed /\ 1 <= quantity item) cart.

(** *** Validation and submission *)

(** The component state [placeOrder] reads. *)
Record Screen := mkScreen {
  cart : list CartItem;
  deliveryAddress : string;
  deliveryLat : string;
  deliveryLng : string;
  instructions : string;
  loading : bool
}.

(** The operands of the [&&] chain of [canPlaceOrder] are booleans and
    strings, and its value is one of them. *)
Inductive Value :=
| VBool (b : bool)
| VString (s : string).

Definition truthy (v : Value) : bool :=
  match v with
  | VBool b => b
  | VString s => JS.truthy_string s
  end.

(** [a && b] *)
Definition and_then (a b : Value) : Value := if truthy a then b else a.

Definition canPlaceOrder (s : Screen) : Value :=
  and_then
    (and_then
       (and_then
          (and_then (VBool (Z.of_nat (length (cart s)) >? 0))
                    (VString (JS.trim (deliveryAddress s))))
          (VString (deliveryLat s)))
       (VString (deliveryLng s)))
    (VBool (negb (loading s))).

(** How far [placeOrder] gets: it returns early after an alert, or it
    reaches [apiService.createOrder(orderData, token)]. *)
Inductive Submission :=
| Refused (notice : Alert)
| Submitted (orderData : CreateOrderPayload) (token : string).

Section Submit.
(** The global [parseFloat]. *)
Variable parseFloat : string -> float.

(** The coordinate test of [placeOrder]. *)
Definition invalidCoordinates (lat lng : float) : bool :=
  (PrimFloat.is_nan lat || PrimFloat.is_nan lng
   || (lat <? -90)%float || (90 <? lat)%float
   || (lng <? -180)%float || (180 <? lng)%float)%bool.

(** [placeOrder], from its entry to the call of [createOrder]. *)
Definition placeOrder (user : option User.t) (token : option string) (s : Screen)
  : Submission :=
  match user, token with
  | Some u, Some t =>
      if negb (JS.truthy_string t)
      then Refused (mkAlert "Error" "Please log in first")
      else if negb (truthy (canPlaceOrder s))
      then Refused (mkAlert "Incomplete Order"
                      "Please fill all required fields and add items")
      else
        let lat := parseFloat (deliveryLat s) in
        let lng := parseFloat (deliveryLng s) in
        if invalidCoordinates lat lng
        then Refused (mkAlert "Invalid Coordinates"
                        "Please enter valid latitude and longitude")
        else
          let trimmed := JS.trim (instructions s) in
          Submitted
            (mkCreateOrderPayload
               (User.id u)
               (Some (map (fun item =>
                             mkOrderItemPayload (item_id item) (quantity item))
                          (cart s)))
               (JS.trim (deliveryAddress s))
               lat lng
               (if JS.truthy_string trimmed then Some trimmed else None))
            t
  | _, _ => Refused (mkAlert "Error" "Please log in first")
  end.
End Submit.

(** *** Sample data *)

Definition sampleCylinder (id : string) (price stock : Z) : GasCylinder.t :=
  GasCylinder.mk id "Cylinder" 6%float price None None stock true None None None None.

(** A stand-in for [parseFloat] in the examples: it agrees with it on
    the plain unsigned decimal numerals below 2^53, and gives NaN on
    everything else. *)
Definition digitValue (c : ascii) : option Z :=
  let n := Z.of_N (N_of_ascii c) in
  if (48 <=? n) && (n <=? 57) then Some (n - 48) else None.

Fixpoint parseDigits (acc : Z) (s : string) : option Z :=
  match s with
  | EmptyString => Some acc
  | String c rest =>
      match digitValue c with
      | Some d => parseDigits (10 * acc + d) rest
      | None => None
      end
  end.

Definition parseNumeral (s : string) : float :=
  match s with
  | EmptyString => PrimFloat.nan
  | String _ _ =>
      match parseDigits 0 s with
      | Some z => PrimFloat.of_uint63 (Uint63.of_Z z)
      | None => PrimFloat.nan
      end
  end.

(** *** Loading the cylinders *)

(** The whole component state: what [placeOrder] reads, the cylinders on
    offer and the error banner. *)
Record Component := mkComponent {
  screen : Screen;
  cylinders : list GasCylinder.t;
  error : string
}.

(** [c.isAvailable && c.stockQuantity > 0] *)
Definition orderable (c : GasCylinder.t) : bool :=
  GasCylinder.isAvailable c && (GasCylinder.stockQuantity c >? 0).

Definition setLoading (b : bool) (c : Component) : Component :=
  mkComponent
    (mkScreen (cart (screen c)) (deliveryAddress (screen c)) (deliveryLat (screen c))
              (deliveryLng (screen c)) (instructions (screen c)) b)
    (cylinders c) (error c).

(** [loadCylinders], given what [apiService.getAllGasCylinders(token)]
    answers (an array of cylinders, as api.ts declares). *)
Definition loadCylinders (getAllGasCylinders : string -> JS.Result (list GasCylinder.t))
    (token : option string) (c : Component) : Component :=
  match token with
  | Some t =>
      if JS.truthy_string t then
        let c := setLoading true c in
        let c :=
          match getAllGasCylinders t with
          | Returned data => mkComponent (screen c) (List.filter orderable data) ""
          | Threw err =>
              mkComponent (screen c) (cylinders c)
                          (JS.or_else (JS.message err) "Failed to load gas cylinders")
          end in
        setLoading false c
      else c
  | None => c
  end.

End PlaceOrder.

(** ** contexts/AuthContext.tsx: storage adapter and session manager *)

Module AuthContext.
Import Api.

(** *** CrossPlatformStorage

    The backend is fixed by the platform: the browser's [localStorage]
    when there is one, nothing at all on the web otherwise, and
    [AsyncStorage] on a device. *)
Inductive Storage :=
| WebWithoutLocalStorage
| WebLocalStorage (persisted : gmap string string)
| AsyncStorage (persisted : gmap string string).

(** What is persisted. *)
Definition entries (s : Storage) : gmap string string :=
  match s with
  | WebWithoutLocalStorage => ∅
  | WebLocalStorage m | AsyncStorage m => m
  end.

(** The calls made on a backend. *)
Inductive StorageCall :=
| GetItem (key : string)
| SetItem (key value : string)
| RemoveItem (key : string)
| Clear.

(** *** The provider's state *)

Record State := mkState {
  user : option User.t;
  token : option string;
  isLoading : bool;
  error : option string
}.

(** [useState] initial values. *)
Definition initialState : State := mkState None None true None.

(** [isAuthenticated = !!user && !!token] *)
Definition isAuthenticated (s : State) : bool :=
  match user s with
  | Some _ => JS.truthy_opt (token s)
  | None => false
  end.

(** The state, the persisted storage and the routes the router was sent
    to (latest first). *)
Record World := mkWorld {
  state : State;
  storage : Storage;
  routes : list string
}.

(** What the outside does during one operation: whether a backend call
    fails (a failed call changes nothing), what the API answers, whether
    [router.replace] fails, and [JSON.parse] / [JSON.stringify] on user
    data.  The answers of [apiService] have the types api.ts declares. *)
Record Env := mkEnv {
  storageFault : StorageCall -> option JS.Error;
  api_login : LoginCredentials -> JS.Result AuthResponse;
  api_register : RegisterData -> JS.Result AuthResponse;
  api_verifyToken : string -> JS.Result unit;
  api_logout : string -> JS.Result unit;
  api_refreshToken : string -> JS.Result AuthResponse;
  routerFault : option JS.Error;
  JSON_parse : string -> JS.Result User.t;
  JSON_stringify : User.t -> string
}.

(** *** Effects: state passing with exceptions *)

Definition Eff (A : Type) : Type := World -> JS.Result A * World.

Definition ret {A} (a : A) : Eff A := fun w => (Returned a, w).

Definition throw {A} (e : JS.Error) : Eff A := fun w => (Threw e, w).

Definition bind {A B} (m : Eff A) (k : A -> Eff B) : Eff B :=
  fun w =>
    match m w with
    | (Returned a, w') => k a w'
    | (Threw e, w') => (Threw e, w')
    end.

(** [try { body } catch (e) { handler }] *)
Definition try_catch {A} (body : Eff A) (handler : JS.Error -> Eff A) : Eff A :=
  fun w =>
    match body w with
    | (Returned a, w') => (Returned a, w')
    | (Threw e, w') => handler e w'
    end.

(** [try { body } finally { final }] *)
Definition try_finally {A} (body : Eff A) (final : Eff unit) : Eff A :=
  fun w =>
    match body w with
    | (r, w') =>
        match final w' with
        | (Returned _, w'') => (r, w'')
        | (Threw e, w'') => (Threw e, w'')
        end
    end.

Definition lift {A} (r : JS.Result A) : Eff A := fun w => (r, w).

Definition modify (f : State -> State) : Eff unit :=
  fun w => (Returned tt, mkWorld (f (state w)) (storage w) (routes w)).

Declare Scope eff_scope.
Delimit Scope eff_scope with eff.
Bind Scope eff_scope with Eff.
Notation "'let*' x ':=' m 'in' k" := (bind m (fun x => k))
  (at level 10, x name, m at level 100, k at level 200) : eff_scope.
Notation "m >> k" := (bind m (fun _ => k))
  (at level 90, right associativity) : eff_scope.
Local Open Scope eff_scope.

Definition setUser (u : option User.t) : Eff unit :=
  modify (fun s => mkState u (token s) (isLoading s) (error s)).
Definition setToken (t : option string) : Eff unit :=
  modify (fun s => mkState (user s) t (isLoading s) (error s)).
Definition setIsLoading (b : bool) : Eff unit :=
  modify (fun s => mkState (user s) (token s) b (error s)).
Definition setError (e : option string) : Eff unit :=
  modify (fun s => mkState (user s) (token s) (isLoading s) e).

Section Provider.
Variable env : Env.

(** A call that reaches the backend fails when the outside says so. *)
Definition backend {A} (c : StorageCall) (m : Eff A) : Eff A :=
  match storageFault env c with
  | Some e => throw e
  | None => m
  end.

Definition getItem (key : string) : Eff (option string) :=
  fun w =>
    match storage w with
    | WebWithoutLocalStorage => (Returned None, w)
    | WebLocalStorage m | AsyncStorage m =>
        backend (GetItem key) (ret (m !! key)) w
    end.

Definition setStorage (s : Storage) : Eff unit :=
  fun w => (Returned tt, mkWorld (state w) s (routes w)).

Definition setItem (key value : string) : Eff unit :=
  fun w =>
    match storage w with
    | WebWithoutLocalStorage => (Returned tt, w)
    | WebLocalStorage m =>
        backend (SetItem key value) (setStorage (WebLocalStorage (<[key := value]> m))) w
    | AsyncStorage m =>
        backend (SetItem key value) (setStorage (AsyncStorage (<[key := value]> m))) w
    end.

Definition removeItem (key : string) : Eff unit :=
  fun w =>
    match storage w with
    | WebWithoutLocalStorage => (Returned tt, w)
    | WebLocalStorage m =>
        backend (RemoveItem key) (setStorage (WebLocalStorage (delete key m))) w
    | AsyncStorage m =>
        backend (RemoveItem key) (setStorage (AsyncStorage (delete key m))) w
    end.

Definition clear : Eff unit :=
  fun w =>
    match storage w with
    | WebWithoutLocalStorage => (Returned tt, w)
    | WebLocalStorage _ => backend Clear (setStorage (WebLocalStorage ∅)) w
    | AsyncStorage _ => backend Clear (setStorage (AsyncStorage ∅)) w
    end.

(** [router.replace(route)] *)
Definition router_replace (route : string) : Eff unit :=
  match routerFault env with
  | Some e => throw e
  | None => fun w => (Returned tt, mkWorld (state w) (storage w) (route :: routes w))
  end.

(** The operations read [token] from the closure of the render that
    created them; [closure] is that value.  The [console] calls have no
    effect on the world and are left out. *)
Definition logout (closure : option string) : Eff unit :=
  try_finally
    (try_catch
       (setIsLoading true >>
        setError None >>
        match closure with
        | Some t =>
            if JS.truthy_string t
            then try_catch (lift (api_logout env t) >> ret tt)
                           (fun logoutError => ret tt)
            else ret tt
        | None => ret tt
        end >>
        setUser None >>
        setToken None >>
        clear >>
        router_replace "/login")
       (fun error =>
          setError (Some "Logout failed, but session was cleared locally.") >>
          setUser None >>
          setToken None))
    (setIsLoading false).

(** The effect run once after the first render.  It holds the [logout]
    of that render, whose [token] is the initial [null]. *)
Definition loadStoredAuthData : Eff unit :=
  try_finally
    (try_catch
       (setIsLoading true >>
        let* storedToken := getItem "authToken" in
        let* storedUserData := getItem "userData" in
        match storedToken, storedUserData with
        | Some tok, Some data =>
            if JS.truthy_string tok && JS.truthy_string data
            then
              let* parsedUser := lift (JSON_parse env data) in
              setUser (Some parsedUser) >>
              setToken (Some tok) >>
              try_catch (lift (api_verifyToken env tok))
                        (fun verifyError => logout None)
            else ret tt
        | _, _ => ret tt
        end)
       (fun e => setError (Some "Failed to load session.")))
    (setIsLoading false).

Definition login (credentials : LoginCredentials) : Eff unit :=
  try_finally
    (try_catch
       (setIsLoading true >>
        setError None >>
        let* response := lift (api_login env credentials) in
        setUser (Some (Api.user response)) >>
        setToken (Some (Api.token response)) >>
        setItem "authToken" (Api.token response) >>
        setItem "userData" (JSON_stringify env (Api.user response)))
       (fun error =>
          setError (Some (JS.or_else (JS.message error)
                            "Login failed. Please try again.")) >>
          throw error))
    (setIsLoading false).

Definition register (userData : RegisterData) : Eff unit :=
  try_finally
    (try_catch
       (setIsLoading true >>
        setError None >>
        let* response := lift (api_register env userData) in
        setUser (Some (Api.user response)) >>
        setToken (Some (Api.token response)) >>
        setItem "authToken" (Api.token response) >>
        setItem "userData" (JSON_stringify env (Api.user response)))
       (fun error =>
          setError (Some (JS.or_else (JS.message error)
                            "Registration failed. Please try again.")) >>
          throw error))
    (setIsLoading false).

Definition refreshToken (closure : option string) : Eff unit :=
  try_finally
    (try_catch
       (setIsLoading true >>
        setError None >>
        let* t := match closure with
                  | Some t =>
                      if JS.truthy_string t then ret t
                      else throw (JS.newError "No token available for refresh")
                  | None => throw (JS.newError "No token available for refresh")
                  end in
        let* response := lift (api_refreshToken env t) in
        setToken (Some (Api.token response)) >>
        setUser (Some (Api.user response)) >>
        setItem "authToken" (Api.token response) >>
        setItem "userData" (JSON_stringify env (Api.user response)))
       (fun error =>
          setError (Some "Session expired. Please log in again.") >>
          logout closure >>
          throw error))
    (setIsLoading false).

Definition clearError : Eff unit := setError None.

End Provider.

(** *** Sessions of the provider *)

Inductive Operation :=
| Restore
| Login (credentials : LoginCredentials)
| Register (userData : RegisterData)
| Refresh
| Logout.

(** An operation started by the interface comes from the latest render,
    so its closure holds the current token. *)
Definition perform (env : Env) (op : Operation) : Eff unit :=
  fun w =>
    match op with
    | Restore => loadStoredAuthData env w
    | Login credentials => login env credentials w
    | Register userData => register env userData w
    | Refresh => refreshToken env (token (state w)) w
    | Logout => logout env (token (state w)) w
    end.

Definition after (w : World) (step : Env * Operation) : World :=
  snd (perform (fst step) (snd step) w).

Definition run (steps : list (Env * Operation)) (w : World) : World :=
  fold_left after steps w.

Definition initialWorld (s : Storage) : World := mkWorld initialState s [].

(** *** Sample data *)

Definition sampleResponse : AuthResponse := mkAuthResponse "ok" "token-1" sampleUser.

Definition sampleStorage : gmap string string :=
  <[ "authToken" := "token-0" ]> (<[ "userData" := "{}" ]> ∅).

Definition networkError : JS.Error := JS.newError "Network request failed".

(** Everything outside works. *)
Definition online : Env :=
  mkEnv (fun _ => None)
        (fun _ => Returned sampleResponse)
        (fun _ => Returned sampleResponse)
        (fun _ => Returned tt)
        (fun _ => Returned tt)
        (fun _ => Returned sampleResponse)
        None
        (fun _ => Returned sampleUser)
        (fun _ => "{}").

(** The server cannot be reached; storage and router work. *)
Definition offline : Env :=
  mkEnv (fun _ => None)
        (fun _ => Threw networkError)
        (fun _ => Threw networkError)
        (fun _ => Threw networkError)
        (fun _ => Threw networkError)
        (fun _ => Threw networkError)
        None
        (fun _ => Returned sampleUser)
        (fun _ => "{}").

(** The server cannot be reached and the backend refuses to clear. *)
Definition offlineClearFails : Env :=
  mkEnv (fun c => match c with
                  | Clear => Some (JS.newError "Failed to clear storage")
                  | _ => None
                  end)
        (fun _ => Threw networkError)
        (fun _ => Threw networkError)
        (fun _ => Threw networkError)
        (fun _ => Threw networkError)
        (fun _ => Threw networkError)
        None
        (fun _ => Returned sampleUser)
        (fun _ => "{}").

Definition signedIn : World :=
  mkWorld (mkState (Some sampleUser) (Some "token-0") false None)
          (AsyncStorage sampleStorage) [].


(** A backend that never fails. *)
Definition reliable (env : Env) : Prop := forall c, storageFault env c = None.

End AuthContext.

(** ** app/orders.tsx: the order history *)

Module Orders.
Import Api.

Record State := mkState {
  orders : list Order.t;
  loading : bool;
  refreshing : bool;
  error : string;
  page : Z;
  hasMore : bool;
  loadingMore : bool
}.

(** [useState] initial values. *)
Definition initialState : State := mkState [] true false "" 1 true false.

Definition ITEMS_PER_PAGE : Z := 10.

Definition setOrders (v : list Order.t) (s : State) : State :=
  mkState v (loading s) (refreshing s) (error s) (page s) (hasMore s) (loadingMore s).
Definition setLoading (v : bool) (s : State) : State :=
  mkState (orders s) v (refreshing s) (error s) (page s) (hasMore s) (loadingMore s).
Definition setRefreshing (v : bool) (s : State) : State :=
  mkState (orders s) (loading s) v (error s) (page s) (hasMore s) (loadingMore s).
Definition setError (v : string) (s : State) : State :=
  mkState (orders s) (loading s) (refreshing s) v (page s) (hasMore s) (loadingMore s).
Definition setPage (v : Z) (s : State) : State :=
  mkState (orders s) (loading s) (refreshing s) (error s) v (hasMore s) (loadingMore s).
Definition setHasMore (v : bool) (s : State) : State :=
  mkState (orders s) (loading s) (refreshing s) (error s) (page s) v (loadingMore s).
Definition setLoadingMore (v : bool) (s : State) : State :=
  mkState (orders s) (loading s) (refreshing s) (error s) (page s) (hasMore s) v.

(** [{ customerId: user.id.toString(), page: pageNum, limit: ITEMS_PER_PAGE }] *)
Definition pageParams (u : User.t) (pageNum : Z) : QueryParams :=
  [("customerId", Some (QString (User.id u)));
   ("page", Some (QNumber pageNum));
   ("limit", Some (QNumber ITEMS_PER_PAGE))].

Section Screen.
(** What [apiService.getAllOrders(token, params)] answers (a page of
    orders, as api.ts declares). *)
Variable getAllOrders : string -> QueryParams -> JS.Result (PaginatedResponse Order.t).
(** [useAuth()] *)
Variable user : option User.t.
Variable token : option string.

(** [loadOrders], from the call to the end of its [finally]. *)
Definition loadOrders (pageNum : Z) (append : bool) (s : State) : State :=
  match token, user with
  | Some t, Some u =>
      if JS.truthy_string t then
        let s := if pageNum =? 1 then setLoading true s else setLoadingMore true s in
        let s :=
          match getAllOrders t (pageParams u pageNum) with
          | Returned response =>
              let s := if append
                       then setOrders (orders s ++ data response) s
                       else setOrders (data response) s in
              let s := setHasMore (Z.of_nat (length (data response)) =? ITEMS_PER_PAGE) s in
              setError "" s
          | Threw err =>
              let s := setError (JS.or_else (JS.message err) "Failed to load orders") s in
              if pageNum =? 1 then setOrders [] s else s
          end in
        setRefreshing false (setLoadingMore false (setLoading false s))
      else s
  | _, _ => s
  end.

Definition onRefresh (s : State) : State :=
  loadOrders 1 false (setPage 1 (setRefreshing true s)).

Definition loadMore (s : State) : State :=
  if negb (loadingMore s) && hasMore s then
    let nextPage := page s + 1 in
    loadOrders nextPage true (setPage nextPage s)
  else s.

End Screen.

Definition canCancelOrder (order : Order.t) : bool :=
  match Order.status order with
  | PENDING | CONFIRMED => true
  | _ => false
  end.

(** The pages [first], [first + 1], ..., [first + count - 1] of an
    answer book, one after the other. *)
Definition pagesFrom (book : Z -> PaginatedResponse Order.t) (first : Z) (count : nat)
  : list Order.t :=
  concat (map (fun k => data (book k)) (seqZ first (Z.of_nat count))).

(** A server that answers the page asked for out of an answer book. *)
Definition answerFrom (book : Z -> PaginatedResponse Order.t)
  : string -> QueryParams -> JS.Result (PaginatedResponse Order.t) :=
  fun _ params =>
    match params with
    | [_; (_, Some (QNumber k)); _] => Returned (book k)
    | _ => Threw (JS.newError "Bad request")
    end.

Definition sampleOrderOf (number : string) (status : OrderStatus) : Order.t :=
  Order.mk number number sampleUser None status PAYMENT_PENDING 45000 5000
           "Plot 1, Kampala Road" 0%float 32%float None None None []
           "2024-01-01T00:00:00Z" "2024-01-01T00:00:00Z".

End Orders.

(** ** app/home.tsx: the logout button *)

Module Home.
Import Api AuthContext.

(** The Logout button of the confirmation dialog: [logout()], and an
    alert when it throws. *)
Definition confirmLogout (env : Env) (closure : option string) (w : World)
  : list PlaceOrder.Alert * World :=
  match logout env closure w with
  | (Returned _, w') => ([], w')
  | (Threw _, w') => ([PlaceOrder.mkAlert "Error" "Failed to logout"], w')
  end.

End Home.

(** ** app/signup.tsx: the registration form *)

(** The regular expressions of the form, as syntax.  Those written with
    [^] and [$] are matched against the whole string by [test]; the two
    unanchored ones are a single class, found anywhere ([Contains]). *)
Module Regex.

Inductive t :=
| Never
| Empty
| Class (p : ascii -> bool)
| Seq (r1 r2 : t)
| Alt (r1 r2 : t)
| Star (r : t).

(** [r+], [r?], [r{n}], [r{0,n}] and [r{lo,hi}] *)
Definition Plus (r : t) : t := Seq r (Star r).
Definition Opt (r : t) : t := Alt Empty r.

Fixpoint Exactly (n : nat) (r : t) : t :=
  match n with
  | O => Empty
  | S n => Seq r (Exactly n r)
  end.

Fixpoint AtMost (n : nat) (r : t) : t :=
  match n with
  | O => Empty
  | S n => Opt (Seq r (AtMost n r))
  end.

Definition Between (lo hi : nat) (r : t) : t :=
  Seq (Exactly lo r) (AtMost (hi - lo) r).

Definition Contains (r : t) : t :=
  Seq (Star (Class (fun _ => true))) (Seq r (Star (Class (fun _ => true)))).

Fixpoint nullable (r : t) : bool :=
  match r with
  | Never => false
  | Empty => true
  | Class _ => false
  | Seq r1 r2 => nullable r1 && nullable r2
  | Alt r1 r2 => nullable r1 || nullable r2
  | Star _ => true
  end.

(** What is left to match after the character [c]. *)
Fixpoint after (c : ascii) (r : t) : t :=
  match r with
  | Never => Never
  | Empty => Never
  | Class p => if p c then Empty else Never
  | Seq r1 r2 =>
      if nullable r1
      then Alt (Seq (after c r1) r2) (after c r2)
      else Seq (after c r1) r2
  | Alt r1 r2 => Alt (after c r1) (after c r2)
  | Star r => Seq (after c r) (Star r)
  end.

(** [regex.test(s)] *)
Fixpoint test (r : t) (s : string) : bool :=
  match s with
  | EmptyString => nullable r
  | String c rest => test (after c r) rest
  end.

(** The strings an expression stands for. *)
Inductive Matches : t -> string -> Prop :=
| MatchEmpty : Matches Empty ""
| MatchClass p c : p c = true -> Matches (Class p) (String c "")
| MatchSeq r1 r2 s1 s2 :
    Matches r1 s1 -> Matches r2 s2 -> Matches (Seq r1 r2) (s1 +:+ s2)
| MatchAltL r1 r2 s : Matches r1 s -> Matches (Alt r1 r2) s
| MatchAltR r1 r2 s : Matches r2 s -> Matches (Alt r1 r2) s
| MatchStarNil r : Matches (Star r) ""
| MatchStarCons r s1 s2 :
    Matches r s1 -> Matches (Star r) s2 -> Matches (Star r) (s1 +:+ s2).

(** Character classes *)
Definition code (c : ascii) : N := N_of_ascii c.
Definition char (x : ascii) (c : ascii) : bool := (code c =? code x)%N.
Definition digit (c : ascii) : bool := ((48 <=? code c) && (code c <=? 57))%N.
Definition nonZeroDigit (c : ascii) : bool := ((49 <=? code c) && (code c <=? 57))%N.
Definition letter (c : ascii) : bool :=
  (((65 <=? code c) && (code c <=? 90)) || ((97 <=? code c) && (code c <=? 122)))%N.

(** Every character of the string is in the class. *)
Fixpoint all (p : ascii -> bool) (s : string) : bool :=
  match s with
  | EmptyString => true
  | String c rest => p c && all p rest
  end.

(** Some character of the string is in the class. *)
Fixpoint some (p : ascii -> bool) (s : string) : bool :=
  match s with
  | EmptyString => false
  | String c rest => p c || some p rest
  end.

(** [s.replace(/[class]/g, '')] *)
Fixpoint remove (p : ascii -> bool) (s : string) : string :=
  match s with
  | EmptyString => EmptyString
  | String c rest => if p c then remove p rest else String c (remove p rest)
  end.

End Regex.

Module Signup.
Import Api.

Record FormData := mkFormData {
  email : string;
  password : string;
  confirmPassword : string;
  firstName : string;
  lastName : string;
  phone : string;
  role : Role;
  address : string
}.

(** [[^\s@]] *)
Definition notSpaceNorAt (c : ascii) : bool :=
  negb (JS.is_space c) && negb (Regex.char "@" c).

(** [[a-zA-Z\s]] *)
Definition letterOrSpace (c : ascii) : bool := Regex.letter c || JS.is_space c.

(** [[\s\-\(\)]] *)
Definition phonePunctuation (c : ascii) : bool :=
  JS.is_space c || Regex.char "-" c || Regex.char "(" c || Regex.char ")" c.

(** [/^[^\s@]+@[^\s@]+\.[^\s@]+$/] *)
Definition emailRegex : Regex.t :=
  Regex.Seq (Regex.Plus (Regex.Class notSpaceNorAt))
    (Regex.Seq (Regex.Class (Regex.char "@"))
       (Regex.Seq (Regex.Plus (Regex.Class notSpaceNorAt))
          (Regex.Seq (Regex.Class (Regex.char "."))
                     (Regex.Plus (Regex.Class notSpaceNorAt))))).

(** [/^[\+]?[1-9][\d]{7,14}$/] *)
Definition phoneRegex : Regex.t :=
  Regex.Seq (Regex.Opt (Regex.Class (Regex.char "+")))
    (Regex.Seq (Regex.Class Regex.nonZeroDigit)
               (Regex.Between 7 14 (Regex.Class Regex.digit))).

(** [/^[a-zA-Z\s]+$/] *)
Definition nameRegex : Regex.t := Regex.Plus (Regex.Class letterOrSpace).

(** [/\d/] and [/[a-zA-Z]/] *)
Definition hasNumberRegex : Regex.t := Regex.Contains (Regex.Class Regex.digit).
Definition hasLetterRegex : Regex.t := Regex.Contains (Regex.Class Regex.letter).

Definition isValidEmail (email : string) : bool := Regex.test emailRegex email.

Definition cleanPhone (phone : string) : string := Regex.remove phonePunctuation phone.

Definition isValidPhone (phone : string) : bool :=
  Regex.test phoneRegex (cleanPhone phone).

(** [if (condition) newErrors[field] = text] *)
Definition flag (condition : bool) (field text : string)
    (newErrors : gmap string string) : gmap string string :=
  if condition then <[field := text]> newErrors else newErrors.

(** [validateForm]: the errors it sets, and its answer. *)
Definition validateForm (formData : FormData) : gmap string string * bool :=
  let email := email formData in
  let password := password formData in
  let confirmPassword := confirmPassword formData in
  let firstName := firstName formData in
  let lastName := lastName formData in
  let phone := phone formData in
  let newErrors : gmap string string := ∅ in
  let newErrors :=
    flag (negb (JS.truthy_string (JS.trim firstName)))
         "firstName" "First name is required" newErrors in
  let newErrors :=
    flag (negb (JS.truthy_string (JS.trim lastName)))
         "lastName" "Last name is required" newErrors in
  let newErrors :=
    flag (negb (JS.truthy_string (JS.trim email)))
         "email" "Email is required" newErrors in
  let newErrors :=
    flag (negb (JS.truthy_string (JS.trim phone)))
         "phone" "Phone number is required" newErrors in
  let newErrors :=
    flag (negb (JS.truthy_string password))
         "password" "Password is required" newErrors in
  let newErrors :=
    flag (negb (JS.truthy_string confirmPassword))
         "confirmPassword" "Please confirm your password" newErrors in
  let newErrors :=
    flag (JS.truthy_string email && negb (isValidEmail (JS.trim email)))
         "email" "Please enter a valid email address" newErrors in
  let newErrors :=
    flag (JS.truthy_string password && (String.length password <? 6)%nat)
         "password" "Password must be at least 6 characters long" newErrors in
  let newErrors :=
    flag (JS.truthy_string password && (6 <=? String.length password)%nat
          && (negb (Regex.test hasNumberRegex password)
              || negb (Regex.test hasLetterRegex password)))
         "password" "Password must contain both letters and numbers" newErrors in
  let newErrors :=
    flag (JS.truthy_string password && JS.truthy_string confirmPassword
          && negb (String.eqb password confirmPassword))
         "confirmPassword" "Passwords do not match" newErrors in
  let newErrors :=
    flag (JS.truthy_string phone && negb (isValidPhone phone))
         "phone" "Please enter a valid phone number" newErrors in
  let newErrors :=
    flag (JS.truthy_string firstName && negb (Regex.test nameRegex (JS.trim firstName)))
         "firstName" "First name should only contain letters" newErrors in
  let newErrors :=
    flag (JS.truthy_string lastName && negb (Regex.test nameRegex (JS.trim lastName)))
         "lastName" "Last name should only contain letters" newErrors in
  (newErrors, (size newErrors =? 0)%nat).

Section Submit.
(** [String.prototype.toLowerCase] *)
Variable toLowerCase : string -> string.

(** [cleanedData] *)
Definition cleanedData (formData : FormData) : RegisterData :=
  mkRegisterData
    (JS.trim (toLowerCase (email formData)))
    (password formData)
    (JS.trim (firstName formData))
    (JS.trim (lastName formData))
    (cleanPhone (phone formData))
    (Some (role formData))
    (if JS.truthy_string (JS.trim (address formData))
     then Some (JS.trim (address formData)) else None)
    None None.

(** [handleSignup], up to the answer of [apiService.createUser]: the
    errors shown, and what the client did. *)
Definition handleSignup (fetch : FetchCall -> JS.Result Response)
    (JSON_stringify : Payload -> string) (formData : FormData)
  : gmap string string * option (Client Json) :=
  let (errors, valid) := validateForm formData in
  if valid
  then (errors, Some (createUser fetch JSON_stringify (cleanedData formData)))
  else (errors, None).
End Submit.

Definition sampleForm : FormData :=
  mkFormData "Amina@Example.com" "secret42" "secret42" "Amina" "Okello"
             "+256 (700) 123-456" customer "".

End Signup.

(** * Properties *)

(** ** The cart and the order total *)

Module PlaceOrderSpec.
Import Api PlaceOrder.

Lemma subtotal_from (cart : list CartItem) (acc : Z) :
  fold_left (fun sum item => sum + item_price item * quantity item) cart acc
  = acc + sum_price_times_quantity cart.
Proof.
  revert acc. induction cart as [|item rest IH]; intros acc; simpl.
  - lia.
  - rewrite IH. lia.
Qed.

(** C7. For every cart the order total is the sum over the items of
    price times quantity, plus the delivery fee of 5000; the cart with
    two cylinders at 20000 and one at 15000 totals 60000. *)
Theorem total_is_sum_plus_delivery_fee :
  (forall cart : list CartItem,
      total cart = sum_price_times_quantity cart + 5000)
  /\ total [mkCartItem (sampleCylinder "a" 20000 10) 2;
            mkCartItem (sampleCylinder "b" 15000 10) 1] = 60000.
Proof.
  split.
  - intros cart. unfold total, subtotal, DELIVERY_FEE.
    rewrite subtotal_from. lia.
  - reflexivity.
Qed.

(** *** Looking an item up by id *)

Lemma find_absent (id : string) (prev : list CartItem) :
  (forall item, In item prev -> item_id item <> id) ->
  find (fun item => String.eqb (item_id item) id) prev = None.
Proof.
  induction prev as [|x rest IH]; intros Habsent; simpl.
  - reflexivity.
  - destruct (String.eqb_spec (item_id x) id) as [Heq|_].
    + exfalso. apply (Habsent x); [now left | exact Heq].
    + apply IH. intros item Hin. apply Habsent. now right.
Qed.

(** C10. A cylinder whose id is not in the cart is appended with
    quantity 1 whatever its stock is, and no alert is raised; when its
    stockQuantity is 0 the new item's quantity, 1, is above its stock. *)
Theorem addToCart_absent_appends_unchecked
    (cylinder : GasCylinder.t) (prev : list CartItem) :
  (forall item, In item prev -> item_id item <> GasCylinder.id cylinder) ->
  addToCart cylinder prev = (prev ++ [mkCartItem cylinder 1], [])
  /\ (GasCylinder.stockQuantity cylinder = 0 ->
      exists item,
        In item (fst (addToCart cylinder prev))
        /\ item_id item = GasCylinder.id cylinder
        /\ quantity item = 1
        /\ quantity item > item_stock item).
Proof.
  intros Habsent.
  assert (Hadd : addToCart cylinder prev = (prev ++ [mkCartItem cylinder 1], [])).
  { unfold addToCart. now rewrite (find_absent _ _ Habsent). }
  split; [exact Hadd|].
  intros Hstock. exists (mkCartItem cylinder 1). rewrite Hadd. simpl.
  repeat split.
  - apply in_or_app. right. now left.
  - unfold item_stock. simpl. lia.
Qed.

Lemma addToCart_absent_appends_unchecked_witness :
  addToCart (sampleCylinder "empty" 20000 0) [mkCartItem (sampleCylinder "a" 20000 3) 2]
  = ([mkCartItem (sampleCylinder "a" 20000 3) 2;
      mkCartItem (sampleCylinder "empty" 20000 0) 1], [])
  /\ exists item,
       In item (fst (addToCart (sampleCylinder "empty" 20000 0)
                       [mkCartItem (sampleCylinder "a" 20000 3) 2]))
       /\ item_id item = "empty"
       /\ quantity item = 1
       /\ quantity item > item_stock item.
Proof.
  destruct (addToCart_absent_appends_unchecked
              (sampleCylinder "empty" 20000 0)
              [mkCartItem (sampleCylinder "a" 20000 3) 2]) as [Happend Hzero].
  - intros item [<-|[]]. discriminate.
  - split; [exact Happend | apply Hzero; reflexivity].
Defined.

(** *** The quantity invariant *)

Lemma NoDup_snoc {A : Type} (l : list A) (x : A) :
  List.NoDup l -> ~ In x l -> List.NoDup (l ++ [x]).
Proof.
  induction l as [|y rest IH]; intros Hnd Hfresh; simpl.
  - constructor; [intros []|constructor].
  - apply List.NoDup_cons_iff in Hnd as [Hy Hnd]. constructor.
    + intros Hin. apply in_app_or in Hin as [Hin|[->|[]]]; [contradiction|].
      apply Hfresh. now left.
    + apply IH; [exact Hnd|]. intros Hin. apply Hfresh. now right.
Qed.

Section CartInvariant.
(** The cylinders that may be handed to [addToCart]. *)
Variable offered : list GasCylinder.t.
Hypothesis in_stock :
  forall c, In c offered -> 1 <= GasCylinder.stockQuantity c.
Hypothesis one_stock_per_id :
  forall c1 c2, In c1 offered -> In c2 offered ->
    GasCylinder.id c1 = GasCylinder.id c2 ->
    GasCylinder.stockQuantity c1 = GasCylinder.stockQuantity c2.

Lemma same_id_same_item (cart : list CartItem) (a b : CartItem) :
  List.NoDup (map item_id cart) -> In a cart -> In b cart ->
  item_id a = item_id b -> a = b.
Proof.
  induction cart as [|x rest IH]; intros Hnd Ha Hb Hid; [destruct Ha|].
  simpl in Hnd. apply List.NoDup_cons_iff in Hnd as [Hfresh Hnd].
  destruct Ha as [->|Ha], Hb as [->|Hb]; auto.
  - exfalso. apply Hfresh. rewrite Hid. now apply in_map.
  - exfalso. apply Hfresh. rewrite <- Hid. now apply in_map.
Qed.

Lemma increment_keeps_ids (id : string) (cart : list CartItem) :
  map item_id
      (map (fun item => if String.eqb (item_id item) id
                        then with_quantity item (quantity item + 1)
                        else item) cart)
  = map item_id cart.
Proof.
  induction cart as [|x rest IH]; simpl; [reflexivity|].
  rewrite IH. now destruct (String.eqb (item_id x) id).
Qed.

Lemma addToCart_well_formed (c : GasCylinder.t) (cart : list CartItem) :
  In c offered -> well_formed offered cart -> well_formed offered (fst (addToCart c cart)).
Proof.
  intros Hc [Hnd Hall]. unfold addToCart.
  destruct (find _ cart) as [existing|] eqn:Hfind.
  - apply find_some in Hfind as [Hin Hid].
    apply String.eqb_eq in Hid.
    destruct (Z.geb_spec (quantity existing) (GasCylinder.stockQuantity c))
      as [_|Hroom]; simpl; [now split|].
    split; [now rewrite increment_keeps_ids|].
    rewrite List.Forall_forall in Hall. apply List.Forall_forall.
    intros item' Hin'. apply in_map_iff in Hin' as (item & <- & Hitem).
    destruct (String.eqb_spec (item_id item) (GasCylinder.id c)) as [Hsame|_];
      [|now apply Hall].
    assert (item = existing) as ->
        by (apply (same_id_same_item cart); congruence).
    destruct (Hall existing Hin) as [Hoff [Hlow Hhigh]].
    split; [exact Hoff|]. unfold quantity_in_range, item_stock in *. simpl.
    rewrite (one_stock_per_id (cylinder existing) c Hoff Hc Hid). lia.
  - simpl. split.
    + rewrite map_app. simpl. apply NoDup_snoc; [exact Hnd|].
      intros Hin. apply in_map_iff in Hin as (item & Hid & Hitem).
      apply (find_none _ _ Hfind) in Hitem. simpl in Hitem.
      apply String.eqb_neq in Hitem. contradiction.
    + apply List.Forall_app. split; [exact Hall|].
      constructor; [|constructor]. split; [exact Hc|].
      unfold quantity_in_range, item_stock. simpl. specialize (in_stock c Hc). lia.
Qed.

Lemma updateQuantity_cons (id : string) (change : Z) (x : CartItem) (rest : list CartItem) :
  fst (updateQuantity id change (x :: rest))
  = match fst (updateItem id change x) with
    | Some y => y :: fst (updateQuantity id change rest)
    | None => fst (updateQuantity id change rest)
    end.
Proof. reflexivity. Qed.

(** What [updateItem] keeps has the id it had. *)
Lemma updateItem_id (id : string) (change : Z) (x y : CartItem) :
  fst (updateItem id change x) = Some y -> item_id y = item_id x.
Proof.
  unfold updateItem.
  destruct (String.eqb (item_id x) id);
    [destruct (quantity x + change <=? 0);
     [|destruct (quantity x + change >? item_stock x)]|];
    simpl; intros [= <-]; reflexivity.
Qed.

Lemma updateItem_in_range (id : string) (change : Z) (x y : CartItem) :
  fst (updateItem id change x) = Some y ->
  In (cylinder x) offered /\ quantity_in_range x ->
  In (cylinder y) offered /\ quantity_in_range y.
Proof.
  unfold updateItem, quantity_in_range, item_stock.
  destruct (String.eqb (item_id x) id); [|now intros [= <-]].
  destruct (Z.leb_spec (quantity x + change) 0) as [_|Hpos]; [discriminate|].
  destruct (Z.gtb_spec (quantity x + change) (GasCylinder.stockQuantity (cylinder x)))
    as [_|Hfit]; simpl; intros [= <-]; simpl; intros [Hoff Hrange]; split; auto; lia.
Qed.

Lemma updateQuantity_ids (id : string) (change : Z) (cart : list CartItem) (i : string) :
  In i (map item_id (fst (updateQuantity id change cart))) -> In i (map item_id cart).
Proof.
  induction cart as [|x rest IH]; [intros []|].
  rewrite updateQuantity_cons.
  destruct (fst (updateItem id change x)) as [y|] eqn:Hx; simpl.
  - rewrite (updateItem_id _ _ _ _ Hx). intros [Hi|Hi]; [now left | right; auto].
  - intros Hi. right. auto.
Qed.

Lemma updateQuantity_well_formed (id : string) (change : Z) (cart : list CartItem) :
  well_formed offered cart -> well_formed offered (fst (updateQuantity id change cart)).
Proof.
  unfold well_formed.
  induction cart as [|x rest IH]; intros [Hnd Hall]; [split; constructor|].
  simpl in Hnd. apply List.NoDup_cons_iff in Hnd as [Hfresh Hnd].
  inversion Hall as [|? ? Hx Hrest]; subst.
  destruct (IH (conj Hnd Hrest)) as [IHnd IHall].
  rewrite updateQuantity_cons.
  destruct (fst (updateItem id change x)) as [y|] eqn:Hy; [|now split].
  split.
  - simpl. constructor; [|exact IHnd].
    rewrite (updateItem_id _ _ _ _ Hy). intros Hin. apply Hfresh.
    now apply updateQuantity_ids in Hin.
  - constructor; [|exact IHall]. now apply (updateItem_in_range id change x).
Qed.

Lemma calls_well_formed (cs : list CartCall) (cart : list CartItem) :
  (forall c, In c (added cs) -> In c offered) ->
  well_formed offered cart -> well_formed offered (calls cs cart).
Proof.
  revert cart. induction cs as [|c rest IH]; intros cart Hsub Hwf; [exact Hwf|].
  simpl. apply IH.
  - intros c' Hc'. apply Hsub. destruct c; simpl; auto.
  - destruct c as [cyl|id change]; simpl.
    + apply addToCart_well_formed; [|exact Hwf]. apply Hsub. now left.
    + now apply updateQuantity_well_formed.
Qed.

End CartInvariant.

(** *** One [updateQuantity] on a cart with distinct ids *)

Lemma updateQuantity_app (id : string) (change : Z) (l1 l2 : list CartItem) :
  fst (updateQuantity id change (l1 ++ l2))
  = fst (updateQuantity id change l1) ++ fst (updateQuantity id change l2).
Proof.
  induction l1 as [|x rest IH]; [reflexivity|].
  rewrite <- app_comm_cons, !updateQuantity_cons, IH.
  now destruct (fst (updateItem id change x)).
Qed.

Lemma updateQuantity_other_ids (id : string) (change : Z) (l : list CartItem) :
  ~ In id (map item_id l) -> fst (updateQuantity id change l) = l.
Proof.
  induction l as [|x rest IH]; intros Hfresh; [reflexivity|].
  rewrite updateQuantity_cons. unfold updateItem.
  destruct (String.eqb_spec (item_id x) id) as [Heq|_].
  - exfalso. apply Hfresh. now left.
  - simpl. f_equal. apply IH. intros Hin. apply Hfresh. now right.
Qed.

Lemma NoDup_middle {A : Type} (l1 l2 : list A) (x : A) :
  List.NoDup (l1 ++ x :: l2) -> ~ In x l1 /\ ~ In x l2.
Proof.
  intros Hnd. apply List.NoDup_remove_2 in Hnd.
  split; intros Hin; apply Hnd; apply in_or_app; auto.
Qed.

Lemma updateQuantity_at (id : string) (change : Z)
    (before after : list CartItem) (item : CartItem) :
  List.NoDup (map item_id (before ++ item :: after)) ->
  item_id item = id ->
  fst (updateQuantity id change (before ++ item :: after))
  = before ++ match fst (updateItem id change item) with
              | Some item' => item' :: after
              | None => after
              end.
Proof.
  intros Hnd Hid. rewrite map_app in Hnd. simpl in Hnd.
  apply NoDup_middle in Hnd as [Hbefore Hafter]. rewrite Hid in *.
  rewrite updateQuantity_app, updateQuantity_cons.
  rewrite !updateQuantity_other_ids by assumption.
  now destruct (fst (updateItem id change item)).
Qed.

(** *** What holds of every session, whatever the cylinders are *)

Lemma addToCart_listed (handed : list GasCylinder.t) (c : GasCylinder.t)
    (cart : list CartItem) :
  In c handed -> listed handed cart -> listed handed (fst (addToCart c cart)).
Proof.
  intros Hc [Hnd Hall]. unfold addToCart.
  destruct (find _ cart) as [existing|] eqn:Hfind.
  - destruct (quantity existing >=? GasCylinder.stockQuantity c); simpl;
      [now split|].
    split; [now rewrite increment_keeps_ids|].
    rewrite List.Forall_forall in Hall. apply List.Forall_forall.
    intros item' Hin'. apply in_map_iff in Hin' as (item & <- & Hitem).
    destruct (Hall item Hitem) as [Hhanded Hlow].
    destruct (String.eqb (item_id item) (GasCylinder.id c)); simpl;
      split; auto; lia.
  - simpl. split.
    + rewrite map_app. simpl. apply NoDup_snoc; [exact Hnd|].
      intros Hin. apply in_map_iff in Hin as (item & Hid & Hitem).
      apply (find_none _ _ Hfind) in Hitem. simpl in Hitem.
      apply String.eqb_neq in Hitem. contradiction.
    + apply List.Forall_app. split; [exact Hall|].
      constructor; [|constructor]. simpl. split; [exact Hc | lia].
Qed.

Lemma updateItem_listed (handed : list GasCylinder.t) (id : string) (change : Z)
    (x y : CartItem) :
  fst (updateItem id change x) = Some y ->
  In (cylinder x) handed /\ 1 <= quantity x ->
  In (cylinder y) handed /\ 1 <= quantity y.
Proof.
  unfold updateItem.
  destruct (String.eqb (item_id x) id); [|now intros [= <-]].
  destruct (Z.leb_spec (quantity x + change) 0) as [_|Hpos]; [discriminate|].
  destruct (quantity x + change >? item_stock x);
    simpl; intros [= <-]; simpl; intros [Hhanded Hlow]; split; auto; lia.
Qed.

Lemma updateQuantity_listed (handed : list GasCylinder.t) (id : string) (change : Z)
    (cart : list CartItem) :
  listed handed cart -> listed handed (fst (updateQuantity id change cart)).
Proof.
  unfold listed.
  induction cart as [|x rest IH]; intros [Hnd Hall]; [split; constructor|].
  simpl in Hnd. apply List.NoDup_cons_iff in Hnd as [Hfresh Hnd].
  inversion Hall as [|? ? Hx Hrest]; subst.
  destruct (IH (conj Hnd Hrest)) as [IHnd IHall].
  rewrite updateQuantity_cons.
  destruct (fst (updateItem id change x)) as [y|] eqn:Hy; [|now split].
  split.
  - simpl. constructor; [|exact IHnd].
    rewrite (updateItem_id _ _ _ _ Hy). intros Hin. apply Hfresh.
    now apply updateQuantity_ids in Hin.
  - constructor; [|exact IHall]. now apply (updateItem_listed handed id change x).
Qed.

Lemma calls_listed (handed : list GasCylinder.t) (cs : list CartCall)
    (cart : list CartItem) :
  (forall c, In c (added cs) -> In c handed) ->
  listed handed cart -> listed handed (calls cs cart).
Proof.
  revert cart. induction cs as [|c rest IH]; intros cart Hsub Hlisted; [exact Hlisted|].
  simpl. apply IH.
  - intros c' Hc'. apply Hsub. destruct c; simpl; auto.
  - destruct c as [cyl|id change]; simpl.
    + apply addToCart_listed; [|exact Hlisted]. apply Hsub. now left.
    + now apply updateQuantity_listed.
Qed.

(** C1, as the code has it. For every sequence of addToCart and
    updateQuantity calls on an empty cart, whatever the cylinders are,
    every item of the resulting cart has a quantity of at least 1, and an
    update that would reach 0 or below removes the item.  Over cylinders
    with stockQuantity >= 1, an update that would exceed the item's
    stockQuantity leaves the cart as it is.  The upper bound, quantity <=
    the item's stockQuantity, holds when in addition any two cylinders
    handed to addToCart with the same id carry the same stockQuantity. *)
Theorem cart_quantity_stays_in_range (cs : list CartCall) :
  Forall (fun item => 1 <= quantity item) (calls cs [])
  /\ (forall (before after : list CartItem) (item : CartItem) (change : Z),
        calls cs [] = before ++ item :: after ->
        quantity item + change <= 0 ->
        fst (updateQuantity (item_id item) change (calls cs [])) = before ++ after)
  /\ ((forall c, In c (added cs) -> 1 <= GasCylinder.stockQuantity c) ->
      (forall (before after : list CartItem) (item : CartItem) (change : Z),
         calls cs [] = before ++ item :: after ->
         quantity item + change > item_stock item ->
         fst (updateQuantity (item_id item) change (calls cs [])) = calls cs [])
      /\ ((forall c1 c2, In c1 (added cs) -> In c2 (added cs) ->
             GasCylinder.id c1 = GasCylinder.id c2 ->
             GasCylinder.stockQuantity c1 = GasCylinder.stockQuantity c2) ->
          Forall quantity_in_range (calls cs []))).
Proof.
  destruct (calls_listed (added cs) cs []) as [Hnd Hall].
  { auto. }
  { split; constructor. }
  split; [|split].
  - eapply List.Forall_impl; [|exact Hall]. now intros item [_ Hlow].
  - intros before after item change Hcart Hchange. rewrite Hcart in *.
    rewrite (updateQuantity_at _ change before after item Hnd eq_refl).
    unfold updateItem. rewrite String.eqb_refl.
    destruct (Z.leb_spec (quantity item + change) 0); [reflexivity | lia].
  - intros Hstock. split.
    + intros before after item change Hcart Hchange. rewrite Hcart in *.
      rewrite (updateQuantity_at _ change before after item Hnd eq_refl).
      apply List.Forall_app in Hall as [_ Hall].
      inversion Hall as [|? ? [Hhanded _] _]; subst.
      specialize (Hstock _ Hhanded). unfold item_stock in *.
      unfold updateItem. rewrite String.eqb_refl.
      destruct (Z.leb_spec (quantity item + change) 0); [lia|].
      unfold item_stock.
      destruct (Z.gtb_spec (quantity item + change)
                           (GasCylinder.stockQuantity (cylinder item)));
        [reflexivity | lia].
    + intros Hsame.
      destruct (calls_well_formed (added cs) Hstock Hsame cs []) as [_ Hrange].
      { auto. }
      { split; constructor. }
      eapply List.Forall_impl; [|exact Hrange]. now intros item [_ Hitem].
Qed.

Lemma cart_quantity_stays_in_range_witness :
  let cs := [AddToCart (sampleCylinder "a" 20000 2);
             AddToCart (sampleCylinder "b" 15000 1);
             AddToCart (sampleCylinder "a" 20000 2);
             AddToCart (sampleCylinder "a" 20000 2);
             UpdateQuantity "b" (-1);
             AddToCart (sampleCylinder "b" 15000 1)] in
  let reloaded := [AddToCart (sampleCylinder "a" 20000 1);
                   AddToCart (sampleCylinder "a" 20000 2)] in
  (calls cs [] = [mkCartItem (sampleCylinder "a" 20000 2) 2;
                  mkCartItem (sampleCylinder "b" 15000 1) 1]
   /\ Forall quantity_in_range (calls cs [])
   /\ fst (updateQuantity "b" (-1) (calls cs []))
      = [mkCartItem (sampleCylinder "a" 20000 2) 2]
   /\ fst (updateQuantity "a" 1 (calls cs [])) = calls cs [])
  /\ (calls reloaded [] = [mkCartItem (sampleCylinder "a" 20000 1) 2]
      /\ Forall (fun item => 1 <= quantity item) (calls reloaded [])
      /\ fst (updateQuantity "a" (-2) (calls reloaded [])) = []
      /\ fst (updateQuantity "a" 1 (calls reloaded [])) = calls reloaded []).
Proof.
  intros cs reloaded. split.
  - destruct (cart_quantity_stays_in_range cs) as (_ & Hremove & Hstocked).
    destruct Hstocked as [Hkeep Hrange].
    { intros c Hc. simpl in Hc.
      repeat (destruct Hc as [<-|Hc]; [simpl; lia|]). destruct Hc. }
    split; [reflexivity|]. split; [|split].
    + apply Hrange. intros c1 c2 H1 H2. simpl in H1, H2.
      repeat (destruct H1 as [<-|H1]);
        repeat (destruct H2 as [<-|H2]);
        try contradiction; simpl; intros Hid; congruence.
    + apply (Hremove [mkCartItem (sampleCylinder "a" 20000 2) 2] []
                     (mkCartItem (sampleCylinder "b" 15000 1) 1) (-1) eq_refl).
      simpl. lia.
    + apply (Hkeep [] [mkCartItem (sampleCylinder "b" 15000 1) 1]
                   (mkCartItem (sampleCylinder "a" 20000 2) 2) 1 eq_refl).
      unfold item_stock. simpl. lia.
  - destruct (cart_quantity_stays_in_range reloaded) as (Hlow & Hremove & Hstocked).
    destruct Hstocked as [Hkeep _].
    { intros c Hc. simpl in Hc.
      repeat (destruct Hc as [<-|Hc]; [simpl; lia|]). destruct Hc. }
    split; [reflexivity|]. split; [exact Hlow|]. split.
    + apply (Hremove [] [] (mkCartItem (sampleCylinder "a" 20000 1) 2) (-2) eq_refl).
      simpl. lia.
    + apply (Hkeep [] [] (mkCartItem (sampleCylinder "a" 20000 1) 2) 1 eq_refl).
      unfold item_stock. simpl. lia.
Defined.

(** C1, as stated, fails: a cylinder that is in the cart with stock 1 and
    is handed to addToCart again with stock 2 (the list was reloaded) gets
    quantity 2, above the stock 1 its item carries. *)
Lemma cart_quantity_exceeds_item_stock :
  ~ (forall cs : list CartCall,
       (forall c, In c (added cs) -> 1 <= GasCylinder.stockQuantity c) ->
       Forall quantity_in_range (calls cs [])).
Proof.
  intros Hclaim.
  specialize (Hclaim [AddToCart (sampleCylinder "a" 20000 1);
                      AddToCart (sampleCylinder "a" 20000 2)]).
  assert (Hrange : Forall quantity_in_range
                     [mkCartItem (sampleCylinder "a" 20000 1) 2]).
  { apply Hclaim. intros c [<-|[<-|[]]]; simpl; lia. }
  inversion Hrange as [|? ? [_ Hhigh] _]. unfold item_stock in Hhigh.
  simpl in Hhigh. lia.
Qed.

(** ** Validation and submission *)

Lemma canPlaceOrder_truthy (s : Screen) :
  truthy (canPlaceOrder s)
  = (Z.of_nat (length (cart s)) >? 0)
    && JS.truthy_string (JS.trim (deliveryAddress s))
    && JS.truthy_string (deliveryLat s)
    && JS.truthy_string (deliveryLng s)
    && negb (loading s).
Proof.
  unfold canPlaceOrder, and_then.
  destruct (Z.of_nat (length (cart s)) >? 0); simpl; [|reflexivity].
  destruct (JS.trim (deliveryAddress s)); simpl; [reflexivity|].
  destruct (deliveryLat s); simpl; [reflexivity|].
  destruct (deliveryLng s); simpl; [reflexivity|].
  reflexivity.
Qed.

(** *** Binary64 comparisons *)

Lemma SFcompare_flip (x y : spec_float) :
  SFcompare y x = option_map CompOpp (SFcompare x y).
Proof.
  destruct x as [sx|sx| |sx mx ex], y as [sy|sy| |sy my ey]; simpl;
    try reflexivity; try (destruct sx; reflexivity); try (destruct sy; reflexivity);
    try (destruct sx, sy; reflexivity).
  destruct sx, sy; simpl; try reflexivity;
    rewrite (Z.compare_antisym ex ey); destruct (ex ?= ey) eqn:He; simpl;
    try reflexivity;
    change (PosDef.Pos.compare_cont Eq my mx) with (Pos.compare my mx);
    change (PosDef.Pos.compare_cont Eq mx my) with (Pos.compare mx my);
    now rewrite (Pos.compare_antisym mx my).
Qed.

Lemma not_nan_spec (x : float) :
  PrimFloat.is_nan x = false -> Prim2SF x <> S754_nan.
Proof.
  unfold PrimFloat.is_nan. rewrite FloatAxioms.eqb_spec.
  intros Heq Hnan. rewrite Hnan in Heq. discriminate.
Qed.

(** Among numbers, [x < y] being false means [y <= x]. *)
Lemma not_ltb_leb (x y : float) :
  PrimFloat.is_nan x = false -> PrimFloat.is_nan y = false ->
  (x <? y)%float = false -> (y <=? x)%float = true.
Proof.
  intros Hx Hy. apply not_nan_spec in Hx, Hy.
  rewrite FloatAxioms.ltb_spec, FloatAxioms.leb_spec. unfold SFltb, SFleb.
  rewrite (SFcompare_flip (Prim2SF x) (Prim2SF y)).
  destruct (SFcompare (Prim2SF x) (Prim2SF y)) as [[]|] eqn:Hc; simpl; try easy.
  exfalso. destruct (Prim2SF x), (Prim2SF y); simpl in Hc; try discriminate; congruence.
Qed.

Lemma valid_coordinates_in_range (lat lng : float) :
  invalidCoordinates lat lng = false ->
  ((-90 <=? lat)%float = true /\ (lat <=? 90)%float = true)
  /\ ((-180 <=? lng)%float = true /\ (lng <=? 180)%float = true).
Proof.
  unfold invalidCoordinates. intros Hvalid.
  repeat (apply orb_false_iff in Hvalid as [Hvalid ?]).
  repeat split; apply not_ltb_leb; auto.
Qed.

(** C2, as the code has it. [canPlaceOrder] only asks for a non-empty
    cart, a non-blank address, non-empty latitude and longitude fields and
    no submission in flight; the ranges are checked by [placeOrder], which
    reaches [createOrder] only when [canPlaceOrder] holds and the parsed
    latitude is in [-90, 90] and the parsed longitude in [-180, 180]; with
    a latitude of 95 it stops at the Invalid Coordinates alert. *)
Theorem placeOrder_checks_coordinate_ranges
    (parseFloat : string -> float)
    (user : option User.t) (token : option string) (s : Screen) :
  truthy (canPlaceOrder s)
  = (Z.of_nat (length (cart s)) >? 0)
    && JS.truthy_string (JS.trim (deliveryAddress s))
    && JS.truthy_string (deliveryLat s)
    && JS.truthy_string (deliveryLng s)
    && negb (loading s)
  /\ (forall orderData t,
        placeOrder parseFloat user token s = Submitted orderData t ->
        truthy (canPlaceOrder s) = true
        /\ deliveryLatitude orderData = parseFloat (deliveryLat s)
        /\ deliveryLongitude orderData = parseFloat (deliveryLng s)
        /\ ((-90 <=? deliveryLatitude orderData)%float = true
            /\ (deliveryLatitude orderData <=? 90)%float = true)
        /\ ((-180 <=? deliveryLongitude orderData)%float = true
            /\ (deliveryLongitude orderData <=? 180)%float = true))
  /\ (forall u t,
        user = Some u -> token = Some t -> JS.truthy_string t = true ->
        truthy (canPlaceOrder s) = true ->
        parseFloat (deliveryLat s) = 95%float ->
        placeOrder parseFloat user token s
        = Refused (mkAlert "Invalid Coordinates"
                     "Please enter valid latitude and longitude")).
Proof.
  split; [apply canPlaceOrder_truthy|]. split.
  - intros orderData t. unfold placeOrder.
    destruct user as [u|]; [|discriminate].
    destruct token as [tok|]; [|discriminate].
    destruct (JS.truthy_string tok); simpl; [|discriminate].
    destruct (truthy (canPlaceOrder s)); simpl; [|discriminate].
    destruct (invalidCoordinates _ _) eqn:Hvalid; [discriminate|].
    intros [= <- <-]. simpl.
    apply valid_coordinates_in_range in Hvalid. tauto.
  - intros u t -> -> Ht Hcan Hlat. unfold placeOrder.
    rewrite Ht, Hcan, Hlat. simpl.
    unfold invalidCoordinates.
    replace (90 <? 95)%float with true by reflexivity.
    now rewrite !orb_true_r.
Qed.

Lemma placeOrder_checks_coordinate_ranges_witness :
  let at_latitude lat :=
    mkScreen [mkCartItem (sampleCylinder "a" 20000 3) 2]
             "Plot 1, Kampala Road" lat "32" "" false in
  placeOrder parseNumeral (Some sampleUser) (Some "token") (at_latitude "95")
  = Refused (mkAlert "Invalid Coordinates" "Please enter valid latitude and longitude")
  /\ (-90 <=? parseNumeral "45")%float = true
  /\ (parseNumeral "45" <=? 90)%float = true.
Proof.
  intros at_latitude. split.
  - apply (placeOrder_checks_coordinate_ranges
             parseNumeral (Some sampleUser) (Some "token") (at_latitude "95"))
      with (u := sampleUser) (t := "token"); reflexivity.
  - destruct (placeOrder_checks_coordinate_ranges
                parseNumeral (Some sampleUser) (Some "token") (at_latitude "45"))
      as (_ & Hsubmitted & _).
    destruct (placeOrder parseNumeral (Some sampleUser) (Some "token") (at_latitude "45"))
      as [notice|orderData t] eqn:Hplace; [discriminate Hplace|].
    destruct (Hsubmitted orderData t eq_refl) as (_ & Hlat & _ & [Hlow Hhigh] & _).
    rewrite Hlat in Hlow, Hhigh. split; assumption.
Defined.

(** C2, as stated, fails: with latitude 95 and everything else in place
    [canPlaceOrder] still answers yes. *)
Lemma canPlaceOrder_ignores_latitude_range :
  ~ (forall s : Screen,
       cart s <> [] ->
       JS.truthy_string (JS.trim (deliveryAddress s)) = true ->
       deliveryLat s = "95" ->
       JS.truthy_string (deliveryLng s) = true ->
       loading s = false ->
       truthy (canPlaceOrder s) = false).
Proof.
  intros Hclaim.
  specialize (Hclaim (mkScreen [mkCartItem (sampleCylinder "a" 20000 3) 2]
                               "Plot 1, Kampala Road" "95" "32" "" false)).
  discriminate Hclaim; try reflexivity. discriminate.
Qed.

End PlaceOrderSpec.

(** ** The API client *)

Module ApiSpec.
Import Api.

Section Request.
Variable fetch : FetchCall -> JS.Result Response.
Variable JSON_stringify : Payload -> string.
Variables (endpoint : string) (options : RequestInit) (sent : list FetchCall).

(** [request] always makes exactly one call of [fetch]. *)
Lemma request_sends_one :
  snd (request fetch endpoint options sent) = fetchCall endpoint options :: sent.
Proof.
  unfold request.
  destruct (fetch _) as [response|e]; [|reflexivity].
  destruct (status response =? 204); [reflexivity|].
  destruct (json response) as [data|e]; [|reflexivity].
  destruct (negb (ok response)); [|reflexivity].
  destruct (property data "error") as [err|e]; [|reflexivity].
  destruct (operand err); [reflexivity|].
  destruct (property data "message") as [msg|e]; [|reflexivity].
  destruct (operand msg); reflexivity.
Qed.



End Request.






(** *** Order creation *)

(** C8. [createOrder] throws a descriptive error and makes no call of
    [fetch] when customerId is empty, when items is missing or empty, or
    when deliveryAddress is empty; when all three are in place it makes the
    POST to /orders. *)
Theorem createOrder_checks_before_dispatch
    (fetch : FetchCall -> JS.Result Response) (JSON_stringify : Payload -> string)
    (orderData : CreateOrderPayload) (token : string) (sent : list FetchCall) :
  (customerId orderData = "" ->
   createOrder fetch JSON_stringify orderData token sent
   = (Threw (JS.newError "Customer ID is required"), sent))
  /\ (customerId orderData <> "" ->
      items orderData = None \/ items orderData = Some [] ->
      createOrder fetch JSON_stringify orderData token sent
      = (Threw (JS.newError "Order items are required"), sent))
  /\ (customerId orderData <> "" ->
      (exists item rest, items orderData = Some (item :: rest)) ->
      deliveryAddress orderData = "" ->
      createOrder fetch JSON_stringify orderData token sent
      = (Threw (JS.newError "Delivery address is required"), sent))
  /\ (customerId orderData <> "" ->
      (exists item rest, items orderData = Some (item :: rest)) ->
      deliveryAddress orderData <> "" ->
      snd (createOrder fetch JSON_stringify orderData token sent)
      = orderCall JSON_stringify orderData token :: sent).
Proof.
  unfold createOrder.
  destruct (customerId orderData) as [|c cs]; simpl.
  - repeat split; intros; congruence.
  - split; [discriminate|].
    destruct (items orderData) as [[|item rest]|]; simpl.
    + repeat split; intros; try reflexivity;
        match goal with H : exists _ _, _ |- _ => destruct H as (? & ? & [=]) end.
    + destruct (deliveryAddress orderData) as [|a addr]; simpl.
      * repeat split; intros; try reflexivity; try congruence.
        match goal with H : _ \/ _ |- _ => destruct H; discriminate end.
      * repeat split; intros; try congruence.
        -- match goal with H : _ \/ _ |- _ => destruct H; discriminate end.
        -- apply request_sends_one.
    + repeat split; intros; try reflexivity;
        match goal with H : exists _ _, _ |- _ => destruct H as (? & ? & [=]) end.
Qed.

Lemma createOrder_checks_before_dispatch_witness :
  let stringify := fun _ : Payload => "{}" in
  let no_customer :=
    mkCreateOrderPayload "" (Some [mkOrderItemPayload "a" 2]) "Plot 1" 0%float 32%float None in
  createOrder (answering 201 (Returned (JObject []))) stringify no_customer "token" []
  = (Threw (JS.newError "Customer ID is required"), [])
  /\ snd (createOrder (answering 201 (Returned (JObject []))) stringify sampleOrder "token" [])
     = [orderCall stringify sampleOrder "token"].
Proof.
  intros stringify no_customer. split.
  - apply (createOrder_checks_before_dispatch
             (answering 201 (Returned (JObject []))) stringify no_customer "token" []).
    reflexivity.
  - destruct (createOrder_checks_before_dispatch
                (answering 201 (Returned (JObject []))) stringify sampleOrder "token" [])
      as (_ & _ & _ & Hsent).
    apply Hsent; [discriminate | now eexists _, _ | discriminate].
Defined.

(** *** No Content *)



End ApiSpec.

(** ** The session manager *)

Module AuthContextSpec.
Import Api AuthContext.

(** Runs the effect combinators and splits on what the outside answers,
    innermost question first. *)
Ltac unfold_effects :=
  unfold logout, loadStoredAuthData, login, register, refreshToken,
    try_finally, try_catch, bind, lift, ret, throw,
    setUser, setToken, setIsLoading, setError, modify,
    clear, getItem, setItem, router_replace, backend, setStorage in *;
  cbn in *.

Ltac ask_outside :=
  repeat match goal with
         | |- context [match ?x with _ => _ end] =>
             lazymatch x with
             | context [match _ with _ => _ end] => fail
             | _ => destruct x eqn:?; cbn in *; try discriminate
             end
         end.

Ltac run_effects := unfold_effects; ask_outside.

(** [logout] returns normally and leaves no user, no token and no loading
    flag, whatever the outside does. *)
Lemma logout_returns (env : Env) (closure : option string) (w : World) :
  fst (logout env closure w) = Returned tt
  /\ user (state (snd (logout env closure w))) = None
  /\ token (state (snd (logout env closure w))) = None
  /\ isLoading (state (snd (logout env closure w))) = false.
Proof. run_effects; auto. Qed.

Lemma logout_clears_storage (env : Env) (closure : option string) (w : World) :
  storageFault env Clear = None ->
  entries (storage (snd (logout env closure w))) = ∅.
Proof. intros Hclear. run_effects; auto; congruence. Qed.

Lemma logout_keeps_storage (env : Env) (closure : option string) (w : World) (e : JS.Error) :
  storageFault env Clear = Some e ->
  storage (snd (logout env closure w)) = storage w.
Proof. intros Hclear. run_effects; auto; congruence. Qed.

(** C3, as the code has it. From every world, whatever the remote logout
    call, the backend and the router do, [logout] returns without throwing
    and leaves user and token null, and so does a second [logout] right
    after it; the persisted storage is empty afterwards whenever the
    backend's clear() itself succeeds, and is left as it was when clear()
    fails. *)
Theorem logout_clears_session (env : Env) (closure : option string) (w : World) :
  fst (logout env closure w) = Returned tt
  /\ user (state (snd (logout env closure w))) = None
  /\ token (state (snd (logout env closure w))) = None
  /\ (storageFault env Clear = None ->
      entries (storage (snd (logout env closure w))) = ∅)
  /\ (forall e, storageFault env Clear = Some e ->
      storage (snd (logout env closure w)) = storage w)
  /\ (forall env' closure',
        fst (logout env' closure' (snd (logout env closure w))) = Returned tt).
Proof.
  destruct (logout_returns env closure w) as (Hreturned & Huser & Htoken & _).
  split; [exact Hreturned|]. split; [exact Huser|]. split; [exact Htoken|].
  split; [apply logout_clears_storage|].
  split; [intros e; apply logout_keeps_storage|].
  intros env' closure'. apply logout_returns.
Qed.

Lemma logout_clears_session_witness :
  fst (logout offline (Some "token-0") signedIn) = Returned tt
  /\ user (state (snd (logout offline (Some "token-0") signedIn))) = None
  /\ token (state (snd (logout offline (Some "token-0") signedIn))) = None
  /\ entries (storage (snd (logout offline (Some "token-0") signedIn))) = ∅
  /\ storage (snd (logout offlineClearFails (Some "token-0") signedIn))
     = AsyncStorage sampleStorage.
Proof.
  destruct (logout_clears_session offline (Some "token-0") signedIn)
    as (Hreturned & Huser & Htoken & Hcleared & _).
  destruct (logout_clears_session offlineClearFails (Some "token-0") signedIn)
    as (_ & _ & _ & _ & Hkept & _).
  split; [exact Hreturned|]. split; [exact Huser|]. split; [exact Htoken|].
  split.
  - apply Hcleared. reflexivity.
  - apply (Hkept (JS.newError "Failed to clear storage")). reflexivity.
Defined.

(** C3, as stated, fails: when the backend's clear() fails, [logout]
    returns with the stored token still persisted. *)
Lemma logout_leaves_storage_when_clear_fails :
  ~ (forall (env : Env) (w : World),
       fst (logout env (token (state w)) w) = Returned tt
       /\ user (state (snd (logout env (token (state w)) w))) = None
       /\ token (state (snd (logout env (token (state w)) w))) = None
       /\ entries (storage (snd (logout env (token (state w)) w))) = ∅).
Proof.
  intros Hclaim.
  destruct (Hclaim offlineClearFails signedIn) as (_ & _ & _ & Hcleared).
  assert (Hstored : entries (storage (snd (logout offlineClearFails
                                              (token (state signedIn)) signedIn)))
                    !! "authToken" = Some "token-0") by reflexivity.
  rewrite Hcleared in Hstored. discriminate Hstored.
Qed.

(** *** Restore *)

(** C6, as the code has it. When the restore reads a token and user data
    from storage, the user data decodes, and the server rejects the token,
    the restore returns with user and token null; the persisted storage is
    empty afterwards whenever the backend's clear() succeeds. *)
Theorem restore_with_rejected_token
    (env : Env) (w : World) (tok data : string)
    (parsedUser : User.t) (verifyError : JS.Error) :
  fst (getItem env "authToken" w) = Returned (Some tok) ->
  JS.truthy_string tok = true ->
  fst (getItem env "userData" w) = Returned (Some data) ->
  JS.truthy_string data = true ->
  JSON_parse env data = Returned parsedUser ->
  api_verifyToken env tok = Threw verifyError ->
  fst (loadStoredAuthData env w) = Returned tt
  /\ user (state (snd (loadStoredAuthData env w))) = None
  /\ token (state (snd (loadStoredAuthData env w))) = None
  /\ isLoading (state (snd (loadStoredAuthData env w))) = false
  /\ (storageFault env Clear = None ->
      entries (storage (snd (loadStoredAuthData env w))) = ∅).
Proof.
  intros Htok Htruthy Hdata Htruthy' Hparse Hverify.
  pose proof (logout_returns env None) as Hlogout.
  pose proof (logout_clears_storage env None) as Hcleared.
  unfold loadStoredAuthData.
  set (logout_first_render := logout env None) in *. clearbody logout_first_render.
  revert Htok Hdata.
  unfold getItem, try_finally, try_catch, bind, setIsLoading, setUser, setToken,
    modify, lift, backend, ret, throw. cbn.
  destruct (storage w) as [|m|m] eqn:Hstorage; cbn; try discriminate.
  all: destruct (storageFault env (GetItem "authToken")); cbn; try discriminate.
  all: intros [= ->].
  all: destruct (storageFault env (GetItem "userData")); cbn; try discriminate.
  all: intros [= ->].
  all: rewrite Htruthy, Htruthy', Hparse, Hverify; cbn.
  all: match goal with
       | first_render : Eff unit |- context [?f ?w0] =>
           constr_eq f first_render;
           specialize (Hlogout w0); specialize (Hcleared w0);
           destruct (first_render w0) as [r w1]
       end.
  all: cbn in *; destruct Hlogout as (-> & Huser & Htoken & _); cbn.
  all: repeat split; assumption.
Qed.

Lemma restore_with_rejected_token_witness :
  let w := initialWorld (AsyncStorage sampleStorage) in
  fst (loadStoredAuthData offline w) = Returned tt
  /\ user (state (snd (loadStoredAuthData offline w))) = None
  /\ token (state (snd (loadStoredAuthData offline w))) = None
  /\ isLoading (state (snd (loadStoredAuthData offline w))) = false
  /\ entries (storage (snd (loadStoredAuthData offline w))) = ∅.
Proof.
  intros w.
  destruct (restore_with_rejected_token offline w "token-0" "{}" sampleUser networkError)
    as (Hreturned & Huser & Htoken & Hloading & Hcleared); try reflexivity.
  split; [exact Hreturned|]. split; [exact Huser|]. split; [exact Htoken|].
  split; [exact Hloading|]. apply Hcleared. reflexivity.
Defined.

(** C6, as stated, fails: when the backend's clear() fails during the
    logout that follows the rejected token, the stored token stays
    persisted. *)
Lemma restore_leaves_storage_when_clear_fails :
  ~ (forall (env : Env) (w : World) (tok data : string)
            (parsedUser : User.t) (verifyError : JS.Error),
       fst (getItem env "authToken" w) = Returned (Some tok) ->
       JS.truthy_string tok = true ->
       fst (getItem env "userData" w) = Returned (Some data) ->
       JS.truthy_string data = true ->
       JSON_parse env data = Returned parsedUser ->
       api_verifyToken env tok = Threw verifyError ->
       user (state (snd (loadStoredAuthData env w))) = None
       /\ token (state (snd (loadStoredAuthData env w))) = None
       /\ entries (storage (snd (loadStoredAuthData env w))) = ∅).
Proof.
  intros Hclaim.
  destruct (Hclaim offlineClearFails (initialWorld (AsyncStorage sampleStorage))
                   "token-0" "{}" sampleUser networkError)
    as (_ & _ & Hcleared); try reflexivity.
  assert (Hstored : entries (storage (snd (loadStoredAuthData offlineClearFails
                                              (initialWorld (AsyncStorage sampleStorage)))))
                    !! "authToken" = Some "token-0") by reflexivity.
  rewrite Hcleared in Hstored. discriminate Hstored.
Qed.

(** *** The session is never partial *)



End AuthContextSpec.

(** ** More on the session manager *)

Module SessionSpec.
Import Api AuthContext AuthContextSpec.

(** On a device or in a browser with localStorage, the adapter is a
    key-value store: what [setItem] wrote is what [getItem] reads, other
    keys are untouched, and [removeItem] and [clear] make keys absent. *)
Theorem storage_adapter_round_trip (env : Env) (w : World) (key value : string) :
  reliable env ->
  storage w <> WebWithoutLocalStorage ->
  fst (getItem env key (snd (setItem env key value w))) = Returned (Some value)
  /\ (forall other, other <> key ->
        fst (getItem env other (snd (setItem env key value w)))
        = fst (getItem env other w))
  /\ fst (getItem env key (snd (removeItem env key w))) = Returned None
  /\ (forall any, fst (getItem env any (snd (clear env w))) = Returned None).
Proof.
  intros Hreliable Hstorage.
  unfold getItem, setItem, removeItem, clear, backend, setStorage, ret.
  destruct (storage w) as [|m|m] eqn:Hs; [congruence| |];
    rewrite !Hreliable; cbn; rewrite ?Hreliable; cbn;
    (split; [now rewrite lookup_insert_eq|]);
    (split; [intros other Hother; rewrite Hreliable; cbn;
             now rewrite lookup_insert_ne by congruence|]);
    (split; [now rewrite lookup_delete_eq|]);
    intros any; rewrite Hreliable; cbn; now rewrite lookup_empty.
Qed.

Lemma storage_adapter_round_trip_witness :
  fst (getItem online "authToken" (snd (setItem online "authToken" "t" signedIn)))
  = Returned (Some "t")
  /\ fst (getItem online "userData" (snd (clear online signedIn))) = Returned None.
Proof.
  destruct (storage_adapter_round_trip online signedIn "authToken" "t")
    as (Hread & _ & _ & Hclear).
  - intros c. reflexivity.
  - discriminate.
  - split; [exact Hread | apply Hclear].
Defined.

(** In a browser without localStorage nothing is ever stored: every read
    gives null and every write returns without effect, whatever the
    outside does. *)
Theorem storage_adapter_without_backend (env : Env) (w : World) (key value : string) :
  storage w = WebWithoutLocalStorage ->
  getItem env key w = (Returned None, w)
  /\ setItem env key value w = (Returned tt, w)
  /\ removeItem env key w = (Returned tt, w)
  /\ clear env w = (Returned tt, w).
Proof.
  intros Hs. unfold getItem, setItem, removeItem, clear. now rewrite Hs.
Qed.

Lemma storage_adapter_without_backend_witness :
  getItem offlineClearFails "authToken" (initialWorld WebWithoutLocalStorage)
  = (Returned None, initialWorld WebWithoutLocalStorage)
  /\ clear offlineClearFails (initialWorld WebWithoutLocalStorage)
     = (Returned tt, initialWorld WebWithoutLocalStorage).
Proof.
  destruct (storage_adapter_without_backend
              offlineClearFails (initialWorld WebWithoutLocalStorage) "authToken" "")
    as (Hget & _ & _ & Hclear); [reflexivity|].
  split; assumption.
Defined.

(** *** Login *)

(** When the API accepts the credentials and the backend works, [login]
    returns with the answer's user and token in the state, no error and no
    loading flag, and with both persisted under authToken and userData. *)
Theorem login_success_persists
    (env : Env) (credentials : LoginCredentials) (w : World) (response : AuthResponse) :
  reliable env ->
  api_login env credentials = Returned response ->
  let w' := snd (login env credentials w) in
  fst (login env credentials w) = Returned tt
  /\ state w' = mkState (Some (Api.user response)) (Some (Api.token response)) false None
  /\ (storage w <> WebWithoutLocalStorage ->
      entries (storage w') !! "authToken" = Some (Api.token response)
      /\ entries (storage w') !! "userData"
         = Some (JSON_stringify env (Api.user response))
      /\ forall key, key <> "authToken" -> key <> "userData" ->
           entries (storage w') !! key = entries (storage w) !! key).
Proof.
  intros Hreliable Hlogin. cbn zeta.
  unfold login, try_finally, try_catch, bind, lift, setIsLoading, setError, setUser,
    setToken, modify, setItem, backend, setStorage, ret, throw.
  rewrite Hlogin. cbn.
  destruct (storage w) as [|m|m] eqn:Hs; cbn; rewrite ?Hreliable; cbn;
    rewrite ?Hreliable; cbn.
  - repeat split; congruence.
  - split; [reflexivity|]. split; [reflexivity|]. intros _.
    split; [now rewrite lookup_insert_ne, lookup_insert_eq|].
    split; [now rewrite lookup_insert_eq|].
    intros key H1 H2. now rewrite !lookup_insert_ne by congruence.
  - split; [reflexivity|]. split; [reflexivity|]. intros _.
    split; [now rewrite lookup_insert_ne, lookup_insert_eq|].
    split; [now rewrite lookup_insert_eq|].
    intros key H1 H2. now rewrite !lookup_insert_ne by congruence.
Qed.

Lemma login_success_persists_witness :
  let w' := snd (login online (mkLoginCredentials "amina@example.com" "pw1234")
                       (initialWorld (AsyncStorage ∅))) in
  state w' = mkState (Some sampleUser) (Some "token-1") false None
  /\ entries (storage w') !! "authToken" = Some "token-1".
Proof.
  destruct (login_success_persists
              online (mkLoginCredentials "amina@example.com" "pw1234")
              (initialWorld (AsyncStorage ∅)) sampleResponse)
    as (_ & Hstate & Hstored).
  - intros c. reflexivity.
  - reflexivity.
  - split; [exact Hstate|]. apply Hstored. discriminate.
Defined.

(** When the API rejects the credentials, [login] throws the API's error
    itself, leaves user, token and storage as they were, and shows the
    error's message, or "Login failed. Please try again." when it has
    none; the shown text is never empty. *)
Theorem login_failure_keeps_session
    (env : Env) (credentials : LoginCredentials) (w : World) (e : JS.Error) :
  api_login env credentials = Threw e ->
  let w' := snd (login env credentials w) in
  fst (login env credentials w) = Threw e
  /\ user (state w') = user (state w)
  /\ token (state w') = token (state w)
  /\ isLoading (state w') = false
  /\ storage w' = storage w
  /\ error (state w')
     = Some (JS.or_else (JS.message e) "Login failed. Please try again.")
  /\ error (state w') <> Some "".
Proof.
  intros Hlogin. cbn zeta.
  unfold login, try_finally, try_catch, bind, lift, setIsLoading, setError, setUser,
    setToken, modify, ret, throw.
  rewrite Hlogin. cbn. repeat split.
  unfold JS.or_else. destruct (JS.message e) as [[|c m]|]; cbn; discriminate.
Qed.

Lemma login_failure_keeps_session_witness :
  let w' := snd (login offline (mkLoginCredentials "amina@example.com" "pw1234") signedIn) in
  fst (login offline (mkLoginCredentials "amina@example.com" "pw1234") signedIn)
  = Threw networkError
  /\ user (state w') = Some sampleUser
  /\ error (state w') = Some "Network request failed".
Proof.
  destruct (login_failure_keeps_session
              offline (mkLoginCredentials "amina@example.com" "pw1234") signedIn
              networkError eq_refl)
    as (Hthrew & Huser & _ & _ & _ & Herror & _).
  split; [exact Hthrew|]. split; [exact Huser | exact Herror].
Defined.

(** When the API accepts the credentials but the backend refuses to store
    the token, [login] throws the backend's error and shows it, yet the
    state already holds the new user and token. *)
Theorem login_storage_failure_keeps_new_session
    (env : Env) (credentials : LoginCredentials) (w : World)
    (response : AuthResponse) (e : JS.Error) :
  api_login env credentials = Returned response ->
  storage w <> WebWithoutLocalStorage ->
  storageFault env (SetItem "authToken" (Api.token response)) = Some e ->
  let w' := snd (login env credentials w) in
  fst (login env credentials w) = Threw e
  /\ user (state w') = Some (Api.user response)
  /\ token (state w') = Some (Api.token response)
  /\ error (state w')
     = Some (JS.or_else (JS.message e) "Login failed. Please try again.")
  /\ storage w' = storage w.
Proof.
  intros Hlogin Hstorage Hfault. cbn zeta.
  unfold login, try_finally, try_catch, bind, lift, setIsLoading, setError, setUser,
    setToken, modify, setItem, backend, setStorage, ret, throw.
  rewrite Hlogin. cbn.
  destruct (storage w) as [|m|m] eqn:Hs; [congruence| |];
    cbn; rewrite Hfault; cbn; repeat split.
Qed.

Lemma login_storage_failure_keeps_new_session_witness :
  let quota := JS.newError "QuotaExceededError" in
  let env := mkEnv (fun c => match c with SetItem _ _ => Some quota | _ => None end)
                   (api_login online) (api_register online) (api_verifyToken online)
                   (api_logout online) (api_refreshToken online) None
                   (JSON_parse online) (JSON_stringify online) in
  let w' := snd (login env (mkLoginCredentials "amina@example.com" "pw1234")
                       (initialWorld (AsyncStorage ∅))) in
  isAuthenticated (state w') = true
  /\ error (state w') = Some "QuotaExceededError"
  /\ entries (storage w') = ∅.
Proof.
  intros quota env w'.
  destruct (login_storage_failure_keeps_new_session
              env (mkLoginCredentials "amina@example.com" "pw1234")
              (initialWorld (AsyncStorage ∅)) sampleResponse quota)
    as (_ & Huser & Htoken & Herror & Hstorage); try reflexivity; try discriminate.
  fold w' in Huser, Htoken, Herror, Hstorage.
  split; [|split].
  - unfold isAuthenticated. now rewrite Huser, Htoken.
  - exact Herror.
  - now rewrite Hstorage.
Defined.

(** *** Restore *)

(** What the restore does once both entries were read and the user data
    decoded: it depends only on the verification. *)
Lemma restore_run (env : Env) (w : World) (tok data : string) (parsedUser : User.t) :
  fst (getItem env "authToken" w) = Returned (Some tok) ->
  JS.truthy_string tok = true ->
  fst (getItem env "userData" w) = Returned (Some data) ->
  JS.truthy_string data = true ->
  JSON_parse env data = Returned parsedUser ->
  api_verifyToken env tok = Returned tt ->
  loadStoredAuthData env w
  = (Returned tt,
     mkWorld (mkState (Some parsedUser) (Some tok) false (error (state w)))
             (storage w) (routes w)).
Proof.
  intros Htok Htruthy Hdata Htruthy' Hparse Hverify.
  revert Htok Hdata.
  unfold loadStoredAuthData, getItem, try_finally, try_catch, bind, setIsLoading,
    setUser, setToken, modify, lift, backend, ret, throw. cbn.
  destruct (storage w) as [|m|m] eqn:Hstorage; cbn; try discriminate.
  all: destruct (storageFault env (GetItem "authToken")); cbn; try discriminate.
  all: intros [= ->].
  all: destruct (storageFault env (GetItem "userData")); cbn; try discriminate.
  all: intros [= ->].
  all: now rewrite Htruthy, Htruthy', Hparse, Hverify.
Qed.

(** When the restore reads a token and user data, the data decodes and
    the server accepts the token, the session is the stored one; storage
    and routes are untouched and the loading flag is cleared. *)
Theorem restore_verified_session
    (env : Env) (w : World) (tok data : string) (parsedUser : User.t) :
  fst (getItem env "authToken" w) = Returned (Some tok) ->
  JS.truthy_string tok = true ->
  fst (getItem env "userData" w) = Returned (Some data) ->
  JS.truthy_string data = true ->
  JSON_parse env data = Returned parsedUser ->
  api_verifyToken env tok = Returned tt ->
  let w' := snd (loadStoredAuthData env w) in
  fst (loadStoredAuthData env w) = Returned tt
  /\ user (state w') = Some parsedUser
  /\ token (state w') = Some tok
  /\ isAuthenticated (state w') = true
  /\ isLoading (state w') = false
  /\ storage w' = storage w
  /\ routes w' = routes w.
Proof.
  intros Htok Htruthy Hdata Htruthy' Hparse Hverify. cbn zeta.
  rewrite (restore_run env w tok data parsedUser) by assumption. cbn.
  unfold isAuthenticated. cbn. now rewrite Htruthy.
Qed.

Lemma restore_verified_session_witness :
  let w' := snd (loadStoredAuthData online (initialWorld (AsyncStorage sampleStorage))) in
  user (state w') = Some sampleUser
  /\ token (state w') = Some "token-0"
  /\ isLoading (state w') = false.
Proof.
  destruct (restore_verified_session
              online (initialWorld (AsyncStorage sampleStorage)) "token-0" "{}" sampleUser)
    as (_ & Huser & Htoken & _ & Hloading & _); try reflexivity.
  split; [exact Huser|]. split; [exact Htoken | exact Hloading].
Defined.

(** When either entry is missing or empty, the restore reads, clears the
    loading flag and does nothing else: no session, no error, no write. *)
Theorem restore_without_stored_session (env : Env) (w : World) :
  (forall key, storageFault env (GetItem key) = None) ->
  JS.truthy_opt (entries (storage w) !! "authToken") = false
  \/ JS.truthy_opt (entries (storage w) !! "userData") = false ->
  loadStoredAuthData env w
  = (Returned tt,
     mkWorld (mkState (user (state w)) (token (state w)) false (error (state w)))
             (storage w) (routes w)).
Proof.
  intros Hreads Hmissing.
  unfold loadStoredAuthData, getItem, try_finally, try_catch, bind, setIsLoading,
    setUser, setToken, modify, lift, backend, ret, throw. cbn.
  destruct (storage w) as [|m|m] eqn:Hstorage; cbn in *; [reflexivity| |].
  all: rewrite !Hreads; cbn; rewrite ?Hreads; cbn.
  all: destruct (m !! "authToken") as [tok|]; cbn in *;
    [destruct (m !! "userData") as [data|]; cbn in *; [|reflexivity] | reflexivity].
  all: destruct (JS.truthy_string tok), (JS.truthy_string data); cbn;
    try reflexivity; destruct Hmissing; discriminate.
Qed.

Lemma restore_without_stored_session_witness :
  loadStoredAuthData online (initialWorld (AsyncStorage ∅))
  = (Returned tt, mkWorld (mkState None None false None) (AsyncStorage ∅) []).
Proof.
  apply (restore_without_stored_session online (initialWorld (AsyncStorage ∅))).
  - intros key. reflexivity.
  - left. reflexivity.
Defined.

(** When the stored user data does not decode, the restore shows "Failed
    to load session.", leaves user and token as they were, and leaves the
    undecodable entry in storage. *)
Theorem restore_undecodable_user_data
    (env : Env) (w : World) (tok data : string) (e : JS.Error) :
  fst (getItem env "authToken" w) = Returned (Some tok) ->
  JS.truthy_string tok = true ->
  fst (getItem env "userData" w) = Returned (Some data) ->
  JS.truthy_string data = true ->
  JSON_parse env data = Threw e ->
  loadStoredAuthData env w
  = (Returned tt,
     mkWorld (mkState (user (state w)) (token (state w)) false
                      (Some "Failed to load session."))
             (storage w) (routes w)).
Proof.
  intros Htok Htruthy Hdata Htruthy' Hparse.
  revert Htok Hdata.
  unfold loadStoredAuthData, getItem, try_finally, try_catch, bind, setIsLoading,
    setUser, setToken, setError, modify, lift, backend, ret, throw. cbn.
  destruct (storage w) as [|m|m] eqn:Hstorage; cbn; try discriminate.
  all: destruct (storageFault env (GetItem "authToken")); cbn; try discriminate.
  all: intros [= ->].
  all: destruct (storageFault env (GetItem "userData")); cbn; try discriminate.
  all: intros [= ->].
  all: now rewrite Htruthy, Htruthy', Hparse.
Qed.

Lemma restore_undecodable_user_data_witness :
  let env := mkEnv (storageFault online) (api_login online) (api_register online)
                   (api_verifyToken online) (api_logout online)
                   (api_refreshToken online) None
                   (fun _ => Threw (JS.newError "Unexpected token"))
                   (JSON_stringify online) in
  snd (loadStoredAuthData env (initialWorld (AsyncStorage sampleStorage)))
  = mkWorld (mkState None None false (Some "Failed to load session."))
            (AsyncStorage sampleStorage) [].
Proof.
  intros env.
  rewrite (restore_undecodable_user_data
             env (initialWorld (AsyncStorage sampleStorage)) "token-0" "{}"
             (JS.newError "Unexpected token")); reflexivity.
Defined.

(** A session that [login] persisted is the session the next start
    restores: with a working backend, a non-empty token, user data that
    [JSON.parse] reads back and a server that still accepts the token, the
    restore from the storage [login] left gives the same user and token. *)
Theorem login_then_restore_round_trip
    (env env' : Env) (credentials : LoginCredentials) (w : World)
    (response : AuthResponse) :
  reliable env -> reliable env' ->
  storage w <> WebWithoutLocalStorage ->
  api_login env credentials = Returned response ->
  JS.truthy_string (Api.token response) = true ->
  JS.truthy_string (JSON_stringify env (Api.user response)) = true ->
  JSON_parse env' (JSON_stringify env (Api.user response)) = Returned (Api.user response) ->
  api_verifyToken env' (Api.token response) = Returned tt ->
  let restarted := initialWorld (storage (snd (login env credentials w))) in
  state (snd (loadStoredAuthData env' restarted))
  = mkState (Some (Api.user response)) (Some (Api.token response)) false None.
Proof.
  intros Hreliable Hreliable' Hstorage Hlogin Htoken Hdata Hparse Hverify restarted.
  assert (Hstored : exists m,
             storage restarted <> WebWithoutLocalStorage
             /\ entries (storage restarted) = m
             /\ m !! "authToken" = Some (Api.token response)
             /\ m !! "userData" = Some (JSON_stringify env (Api.user response))).
  { subst restarted. cbn.
    unfold login, try_finally, try_catch, bind, lift, setIsLoading, setError, setUser,
      setToken, modify, setItem, backend, setStorage, ret, throw.
    rewrite Hlogin. cbn.
    destruct (storage w) as [|m|m] eqn:Hs; [congruence| |];
      cbn; rewrite ?Hreliable; cbn; rewrite ?Hreliable; cbn;
      eexists; (split; [discriminate|]); (split; [reflexivity|]);
      (split; [now rewrite lookup_insert_ne, lookup_insert_eq
              | now rewrite lookup_insert_eq]). }
  destruct Hstored as (m & Hbackend & Hentries & Htok & Huser).
  rewrite (restore_run env' restarted (Api.token response)
                       (JSON_stringify env (Api.user response)) (Api.user response));
    try assumption; try reflexivity.
  - unfold getItem, backend, ret.
    destruct (storage restarted); [congruence| |]; cbn in Hentries; subst;
      now rewrite Hreliable', Htok.
  - unfold getItem, backend, ret.
    destruct (storage restarted); [congruence| |]; cbn in Hentries; subst;
      now rewrite Hreliable', Huser.
Qed.

Lemma login_then_restore_round_trip_witness :
  let credentials := mkLoginCredentials "amina@example.com" "pw1234" in
  let restarted :=
    initialWorld (storage (snd (login online credentials (initialWorld (AsyncStorage ∅))))) in
  state (snd (loadStoredAuthData online restarted))
  = mkState (Some sampleUser) (Some "token-1") false None.
Proof.
  intros credentials.
  apply (login_then_restore_round_trip
           online online credentials (initialWorld (AsyncStorage ∅)) sampleResponse);
    try reflexivity; try discriminate; intros c; reflexivity.
Defined.

(** *** The loading flag *)

(** Whatever the outside does and however the operation ends, restore,
    login, register, refresh and logout leave the loading flag cleared. *)
Theorem loading_flag_cleared (env : Env) (op : Operation) (w : World) :
  isLoading (state (snd (perform env op w))) = false.
Proof.
  destruct op; unfold perform; run_effects; cbn; try reflexivity.
  all: match goal with
       | Hrun : logout ?e ?c ?w0 = (_, _) |- _ =>
           destruct (logout_returns e c w0) as (_ & _ & _ & Hloading);
           now rewrite Hrun in Hloading
       end.
Qed.

(** *** Refresh *)

(** A refresh that fails, because there is no token or because the API
    rejects it, throws the error it failed with and ends logged out: user
    and token are null, and storage is empty when the backend's clear()
    succeeds.  The "Session expired. Please log in again." text it sets is
    always overwritten by the logout: the error shown afterwards is either
    none or "Logout failed, but session was cleared locally.". *)
Theorem refresh_failure_logs_out
    (env : Env) (closure : option string) (w : World) (e : JS.Error) :
  (JS.truthy_opt closure = false /\ e = JS.newError "No token available for refresh")
  \/ (exists t, closure = Some t /\ JS.truthy_string t = true
                /\ api_refreshToken env t = Threw e) ->
  let w' := snd (refreshToken env closure w) in
  fst (refreshToken env closure w) = Threw e
  /\ user (state w') = None
  /\ token (state w') = None
  /\ (storageFault env Clear = None -> entries (storage w') = ∅)
  /\ (error (state w') = None
      \/ error (state w') = Some "Logout failed, but session was cleared locally.").
Proof.
  cbn zeta. intros Hfailure.
  assert (Hrun : refreshToken env closure w
                 = let '(_, w1) :=
                     logout env closure
                       (mkWorld (mkState (user (state w)) (token (state w)) true
                                   (Some "Session expired. Please log in again."))
                                (storage w) (routes w)) in
                   (Threw e,
                    mkWorld (mkState (user (state w1)) (token (state w1)) false
                                     (error (state w1)))
                            (storage w1) (routes w1))).
  { unfold refreshToken.
    pose proof (logout_returns env closure) as Hlogout.
    set (signOut := logout env closure) in *. clearbody signOut.
    unfold try_finally, try_catch, bind, lift, setIsLoading, setError, setUser,
      setToken, modify, ret, throw. cbn.
    destruct Hfailure as [[Hnone ->]|(t & -> & Htruthy & Hrefresh)].
    - destruct closure as [t|]; cbn in *; [rewrite Hnone|]; cbn;
        match goal with
        | |- context [?f ?w0] =>
            constr_eq f signOut; specialize (Hlogout w0); destruct (f w0) as [r w1]
        end; cbn in *; destruct Hlogout as (-> & _); reflexivity.
    - cbn. rewrite Htruthy. cbn. rewrite Hrefresh. cbn.
      match goal with
      | |- context [?f ?w0] =>
          constr_eq f signOut; specialize (Hlogout w0); destruct (f w0) as [r w1]
      end; cbn in *; destruct Hlogout as (-> & _); reflexivity. }
  rewrite Hrun.
  set (w0 := mkWorld _ _ _).
  destruct (logout_returns env closure w0) as (_ & Huser & Htoken & _).
  pose proof (logout_clears_storage env closure w0) as Hcleared.
  assert (Herror : error (state (snd (logout env closure w0))) = None
                   \/ error (state (snd (logout env closure w0)))
                      = Some "Logout failed, but session was cleared locally.").
  { clear. run_effects; auto. }
  destruct (logout env closure w0) as [r w1]. cbn in *. tauto.
Qed.

Lemma refresh_failure_logs_out_witness :
  let w' := snd (refreshToken offline (Some "token-0") signedIn) in
  fst (refreshToken offline (Some "token-0") signedIn) = Threw networkError
  /\ user (state w') = None
  /\ entries (storage w') = ∅
  /\ fst (refreshToken online None signedIn)
     = Threw (JS.newError "No token available for refresh").
Proof.
  destruct (refresh_failure_logs_out offline (Some "token-0") signedIn networkError)
    as (Hthrew & Huser & _ & Hcleared & _).
  { right. exists "token-0". repeat split. }
  destruct (refresh_failure_logs_out online None signedIn
              (JS.newError "No token available for refresh"))
    as (Hnone & _).
  { left. split; reflexivity. }
  split; [exact Hthrew|]. split; [exact Huser|]. split; [|exact Hnone].
  apply Hcleared. reflexivity.
Defined.

(** A refresh that the API accepts, with a working backend, replaces
    token and user by the answer's and persists both. *)
Theorem refresh_success_replaces_session
    (env : Env) (t : string) (w : World) (response : AuthResponse) :
  reliable env ->
  JS.truthy_string t = true ->
  api_refreshToken env t = Returned response ->
  let w' := snd (refreshToken env (Some t) w) in
  fst (refreshToken env (Some t) w) = Returned tt
  /\ state w' = mkState (Some (Api.user response)) (Some (Api.token response)) false None
  /\ routes w' = routes w
  /\ (storage w <> WebWithoutLocalStorage ->
      entries (storage w') !! "authToken" = Some (Api.token response)
      /\ entries (storage w') !! "userData"
         = Some (JSON_stringify env (Api.user response))).
Proof.
  intros Hreliable Htruthy Hrefresh. cbn zeta.
  unfold refreshToken, try_finally, try_catch, bind, lift, setIsLoading, setError,
    setUser, setToken, modify, setItem, backend, setStorage, ret, throw.
  cbn. rewrite Htruthy. cbn. rewrite Hrefresh. cbn.
  destruct (storage w) as [|m|m] eqn:Hs; cbn; rewrite ?Hreliable; cbn;
    rewrite ?Hreliable; cbn.
  - repeat split; congruence.
  - split; [reflexivity|]. split; [reflexivity|]. split; [reflexivity|]. intros _.
    split; [now rewrite lookup_insert_ne, lookup_insert_eq | now rewrite lookup_insert_eq].
  - split; [reflexivity|]. split; [reflexivity|]. split; [reflexivity|]. intros _.
    split; [now rewrite lookup_insert_ne, lookup_insert_eq | now rewrite lookup_insert_eq].
Qed.

Lemma refresh_success_replaces_session_witness :
  state (snd (refreshToken online (Some "token-0") signedIn))
  = mkState (Some sampleUser) (Some "token-1") false None.
Proof.
  destruct (refresh_success_replaces_session online "token-0" signedIn sampleResponse)
    as (_ & Hstate & _);
    [intros c; reflexivity | reflexivity | reflexivity | exact Hstate].
Defined.

(** *** Where logout leads *)

(** [logout] sends the router to /login, and shows no error, exactly when
    clearing the storage and the navigation both succeed; when either
    fails it shows "Logout failed, but session was cleared locally." and
    the route is not replaced. *)
Theorem logout_redirects_when_cleared (env : Env) (closure : option string) (w : World) :
  let cleared :=
    match storage w with
    | WebWithoutLocalStorage => true
    | _ => match storageFault env Clear with None => true | Some _ => false end
    end in
  let navigated := match routerFault env with None => true | Some _ => false end in
  let w' := snd (logout env closure w) in
  (cleared && navigated = true ->
   routes w' = "/login" :: routes w /\ error (state w') = None)
  /\ (cleared && navigated = false ->
      routes w' = routes w
      /\ error (state w') = Some "Logout failed, but session was cleared locally.").
Proof.
  cbn zeta. split; intros Hok; run_effects; auto.
Qed.

Lemma logout_redirects_when_cleared_witness :
  routes (snd (logout offline (Some "token-0") signedIn)) = ["/login"]
  /\ routes (snd (logout offlineClearFails (Some "token-0") signedIn)) = []
  /\ error (state (snd (logout offlineClearFails (Some "token-0") signedIn)))
     = Some "Logout failed, but session was cleared locally.".
Proof.
  destruct (logout_redirects_when_cleared offline (Some "token-0") signedIn)
    as [Hgone _].
  destruct (logout_redirects_when_cleared offlineClearFails (Some "token-0") signedIn)
    as [_ Hstays].
  split; [apply Hgone; reflexivity | apply Hstays; reflexivity].
Defined.

(** The Logout button of the home screen never shows its "Failed to
    logout" alert: [logout] does not throw, whatever the outside does. *)
Theorem confirmLogout_never_alerts (env : Env) (closure : option string) (w : World) :
  fst (Home.confirmLogout env closure w) = []
  /\ user (state (snd (Home.confirmLogout env closure w))) = None
  /\ token (state (snd (Home.confirmLogout env closure w))) = None.
Proof.
  unfold Home.confirmLogout.
  destruct (logout_returns env closure w) as (Hreturned & Huser & Htoken & _).
  destruct (logout env closure w) as [r w']. cbn in *. subst r. auto.
Qed.

End SessionSpec.

(** ** More on the API client *)

Module ClientSpec.
Import Api ApiSpec.

(** What [request] cannot handle it passes on untouched: a network
    failure and a body that does not decode are thrown as they are, and
    the decoded body of an answer in 200..299 other than 204 is returned
    as it is.  One call of [fetch] is made in each case. *)
Theorem request_passes_through
    (fetch : FetchCall -> JS.Result Response)
    (endpoint : string) (options : RequestInit) (sent : list FetchCall) :
  (forall e,
      fetch (fetchCall endpoint options) = Threw e ->
      request fetch endpoint options sent = (Threw e, fetchCall endpoint options :: sent))
  /\ (forall response e,
        fetch (fetchCall endpoint options) = Returned response ->
        status response <> 204 ->
        json response = Threw e ->
        request fetch endpoint options sent
        = (Threw e, fetchCall endpoint options :: sent))
  /\ (forall response data,
        fetch (fetchCall endpoint options) = Returned response ->
        ok response = true ->
        status response <> 204 ->
        json response = Returned data ->
        request fetch endpoint options sent
        = (Returned data, fetchCall endpoint options :: sent)).
Proof.
  split; [|split].
  - intros e Hfetch. unfold request. now rewrite Hfetch.
  - intros response e Hfetch Hstatus Hjson. unfold request.
    apply Z.eqb_neq in Hstatus. now rewrite Hfetch, Hstatus, Hjson.
  - intros response data Hfetch Hok Hstatus Hjson. unfold request.
    apply Z.eqb_neq in Hstatus. now rewrite Hfetch, Hstatus, Hjson, Hok.
Qed.

Lemma request_passes_through_witness :
  let orders := JArray [JObject [("id", JString "o1")]] in
  fst (request (answering 200 (Returned orders)) "/orders"
               (mkRequestInit (Some "GET") (bearer "token") None) [])
  = Returned orders
  /\ fst (request (fun _ => Threw (JS.newError "Network request failed")) "/orders"
                  (mkRequestInit (Some "GET") (bearer "token") None) [])
     = Threw (JS.newError "Network request failed").
Proof.
  intros orders.
  destruct (request_passes_through
              (answering 200 (Returned orders)) "/orders"
              (mkRequestInit (Some "GET") (bearer "token") None) [])
    as (_ & _ & Hdata).
  destruct (request_passes_through
              (fun _ => Threw (JS.newError "Network request failed")) "/orders"
              (mkRequestInit (Some "GET") (bearer "token") None) [])
    as (Hnetwork & _).
  split.
  - rewrite (Hdata (mkResponse 200 (Returned orders)) orders);
      [reflexivity | reflexivity | reflexivity | discriminate | reflexivity].
  - now rewrite (Hnetwork (JS.newError "Network request failed")).
Defined.

(** [request] never replaces a header the caller set; it adds
    Content-Type: application/json when, and only when, the body is a
    non-empty string and the caller set no Content-Type; method, body and
    URL are the caller's. *)
Theorem request_keeps_caller_headers (endpoint : string) (options : RequestInit) :
  let c := fetchCall endpoint options in
  (forall key value,
      headers options !! key = Some value ->
      headers (config c) !! key = Some value)
  /\ (forall key, key <> "Content-Type" ->
        headers (config c) !! key = headers options !! key)
  /\ (headers options !! "Content-Type" = None ->
      headers (config c) !! "Content-Type"
      = if JS.truthy_opt (body options) then Some "application/json" else None)
  /\ method (config c) = method options
  /\ body (config c) = body options
  /\ url c = API_BASE_URL +:+ endpoint.
Proof.
  cbn zeta. unfold fetchCall. cbn. repeat split.
  - intros key value Hset. now apply lookup_union_Some_l.
  - intros key Hkey. destruct (headers options !! key) as [value|] eqn:Hset.
    + now apply lookup_union_Some_l.
    + rewrite lookup_union_r by assumption.
      destruct (JS.truthy_opt (body options)).
      * now rewrite lookup_singleton_ne.
      * now rewrite lookup_empty.
  - intros Hunset. rewrite lookup_union_r by assumption.
    destruct (JS.truthy_opt (body options)).
    + now rewrite lookup_singleton_eq.
    + now rewrite lookup_empty.
Qed.

Lemma request_keeps_caller_headers_witness :
  let custom := mkRequestInit (Some "POST") {[ "Content-Type" := "text/plain" ]} (Some "hello") in
  headers (config (fetchCall "/echo" custom)) !! "Content-Type" = Some "text/plain"
  /\ headers (config (fetchCall "/auth/login" (mkRequestInit (Some "POST") ∅ (Some "{}"))))
       !! "Content-Type" = Some "application/json"
  /\ headers (config (fetchCall "/health" (mkRequestInit (Some "GET") ∅ None)))
       !! "Content-Type" = None.
Proof.
  intros custom.
  destruct (request_keeps_caller_headers "/echo" custom) as (Hkept & _).
  destruct (request_keeps_caller_headers
              "/auth/login" (mkRequestInit (Some "POST") ∅ (Some "{}")))
    as (_ & _ & Hadded & _).
  destruct (request_keeps_caller_headers "/health" (mkRequestInit (Some "GET") ∅ None))
    as (_ & _ & Hnone & _).
  split; [apply Hkept; reflexivity|].
  split; [apply Hadded; reflexivity | apply Hnone; reflexivity].
Defined.

(** *** The methods *)

Lemma prefix_append (a b : string) : String.prefix a (a +:+ b) = true.
Proof.
  induction a as [|c a IH]; [now destruct b|].
  change (String.prefix (String c a) (String c (a +:+ b)) = true).
  simpl. destruct (Ascii.ascii_dec c c); [exact IH | congruence].
Qed.

Lemma request_call (fetch : FetchCall -> JS.Result Response)
    (endpoint : string) (options : RequestInit) (sent : list FetchCall) (t : option string) :
  headers options !! "Authorization" = (fun t => "Bearer " +:+ t) <$> t ->
  exists c,
    snd (request fetch endpoint options sent) = c :: sent
    /\ String.prefix API_BASE_URL (url c) = true
    /\ headers (config c) !! "Authorization" = (fun t => "Bearer " +:+ t) <$> t.
Proof.
  intros Hauth. exists (fetchCall endpoint options).
  split; [apply request_sends_one|]. split.
  - unfold fetchCall. cbn [url]. apply prefix_append.
  - unfold fetchCall. cbn [config headers].
    destruct t as [t|]; cbn in *.
    + now apply lookup_union_Some_l.
    + rewrite lookup_union_r by assumption.
      destruct (JS.truthy_opt (body options));
        [now rewrite lookup_singleton_ne | now rewrite lookup_empty].
Qed.

(** Every method of the client makes at most one call of [fetch], to a
    URL under the API base; the call carries "Authorization: Bearer
    <token>" with the method's own token when it has one, and no
    Authorization header when it has none. *)
Theorem methods_send_their_bearer
    (fetch : FetchCall -> JS.Result Response) (JSON_stringify : Payload -> string)
    (URLSearchParams_toString : list (string * string) -> string)
    (m : Method) (sent : list FetchCall) :
  snd (invoke fetch JSON_stringify URLSearchParams_toString m sent) = sent
  \/ exists c,
       snd (invoke fetch JSON_stringify URLSearchParams_toString m sent) = c :: sent
       /\ String.prefix API_BASE_URL (url c) = true
       /\ headers (config c) !! "Authorization"
          = (fun t => "Bearer " +:+ t) <$> tokenOf m.
Proof.
  destruct m; cbn [invoke tokenOf];
    try solve [ right; apply request_call; cbn; unfold optionalBearer;
                repeat match goal with
                       | |- context [match ?x with _ => _ end] => destruct x
                       end;
                cbn; first [ apply lookup_empty | apply lookup_singleton_eq ] ].
  unfold createOrder.
  destruct (negb (JS.truthy_string (customerId orderData))); [now left|].
  destruct (match items orderData with
            | Some l => Z.of_nat (length l) =? 0
            | None => true
            end); [now left|].
  destruct (negb (JS.truthy_string (deliveryAddress orderData))); [now left|].
  right. apply request_call. cbn.
  rewrite lookup_insert_ne by discriminate. apply lookup_singleton_eq.
Qed.

(** *** Query strings *)

(** [buildQueryString] ignores the entries that are undefined, null or
    the empty string, wherever they stand, so a params object with only
    such entries gives what the empty object gives; and its result is
    either empty or a "?" followed by a non-empty query. *)
Theorem buildQueryString_drops_blank_entries
    (URLSearchParams_toString : list (string * string) -> string) :
  (forall before after key,
      buildQueryString URLSearchParams_toString (before ++ (key, None) :: after)
      = buildQueryString URLSearchParams_toString (before ++ after)
      /\ buildQueryString URLSearchParams_toString
           (before ++ (key, Some (QString "")) :: after)
         = buildQueryString URLSearchParams_toString (before ++ after))
  /\ (forall params,
        Forall (fun entry => snd entry = None \/ snd entry = Some (QString "")) params ->
        buildQueryString URLSearchParams_toString params
        = buildQueryString URLSearchParams_toString [])
  /\ (forall params,
        buildQueryString URLSearchParams_toString params = ""
        \/ exists query, query <> ""
             /\ buildQueryString URLSearchParams_toString params = "?" +:+ query).
Proof.
  split; [|split].
  - intros before after key. unfold buildQueryString.
    now rewrite !omap_app.
  - intros params Hblank. unfold buildQueryString.
    replace (omap appended params) with (@nil (string * string)); [reflexivity|].
    induction Hblank as [|[key value] rest [Hvalue|Hvalue] _ IH]; cbn in *;
      [reflexivity| |]; subst; cbn; exact IH.
  - intros params. unfold buildQueryString.
    destruct (URLSearchParams_toString (omap appended params)) as [|c q] eqn:Hq; cbn.
    + now left.
    + right. exists (String c q). split; [discriminate | reflexivity].
Qed.

Lemma buildQueryString_drops_blank_entries_witness :
  let join := fun entries : list (string * string) =>
    match entries with
    | [] => ""
    | (k, v) :: _ => k +:+ "=" +:+ v
    end in
  buildQueryString join [("status", None); ("page", Some (QNumber 2)); ("driverId", Some (QString ""))]
  = buildQueryString join [("page", Some (QNumber 2))]
  /\ buildQueryString join [("status", None); ("driverId", Some (QString ""))]
     = buildQueryString join [].
Proof.
  intros join.
  destruct (buildQueryString_drops_blank_entries join) as (Hdrop & Hblank & _).
  split.
  - destruct (Hdrop [] [("page", Some (QNumber 2)); ("driverId", Some (QString ""))] "status")
      as [Hnone _].
    destruct (Hdrop [("page", Some (QNumber 2))] [] "driverId") as [_ Hempty].
    exact (eq_trans Hnone Hempty).
  - apply Hblank.
    constructor; [left; reflexivity|].
    constructor; [right; reflexivity | constructor].
Defined.

End ClientSpec.

(** ** More on the order screen *)

Module OrderScreenSpec.
Import Api PlaceOrder PlaceOrderSpec.

(** After [loadCylinders] with a token, the loading flag is cleared and
    the cart is untouched.  When the API answers, the list shows exactly
    the answered cylinders that are available with a stock of at least 1,
    in the answer's order, and the error banner is emptied; when it fails,
    the list stays and the banner shows a non-empty text.  Without a token
    nothing changes. *)
Theorem loadCylinders_lists_orderable
    (getAllGasCylinders : string -> JS.Result (list GasCylinder.t))
    (token : option string) (c : Component) :
  let c' := loadCylinders getAllGasCylinders token c in
  (JS.truthy_opt token = false -> c' = c)
  /\ (forall t, token = Some t -> JS.truthy_string t = true ->
        loading (screen c') = false
        /\ cart (screen c') = cart (screen c)
        /\ (forall data, getAllGasCylinders t = Returned data ->
              cylinders c' = List.filter orderable data
              /\ error c' = ""
              /\ Forall (fun shown =>
                           In shown data
                           /\ GasCylinder.isAvailable shown = true
                           /\ 1 <= GasCylinder.stockQuantity shown) (cylinders c'))
        /\ (forall err, getAllGasCylinders t = Threw err ->
              cylinders c' = cylinders c /\ error c' <> "")).
Proof.
  cbn zeta. unfold loadCylinders. split.
  - destruct token as [t|]; cbn; [intros ->|]; reflexivity.
  - intros t -> Htruthy. rewrite Htruthy.
    destruct (getAllGasCylinders t) as [data|err]; cbn.
    + split; [reflexivity|]. split; [reflexivity|]. split; [|discriminate].
      intros data' [= <-]. split; [reflexivity|]. split; [reflexivity|].
      apply List.Forall_forall. intros shown Hshown.
      apply filter_In in Hshown as [Hin Horderable].
      unfold orderable in Horderable.
      apply andb_true_iff in Horderable as [Havailable Hstock].
      split; [exact Hin|]. split; [exact Havailable | lia].
    + split; [reflexivity|]. split; [reflexivity|]. split; [discriminate|].
      intros err' [= <-]. split; [reflexivity|].
      unfold JS.or_else. destruct (JS.message err) as [[|ch m]|]; cbn; discriminate.
Qed.

Lemma loadCylinders_lists_orderable_witness :
  let answer := fun _ : string =>
    Returned [sampleCylinder "a" 20000 3; sampleCylinder "gone" 15000 0;
              sampleCylinder "b" 15000 1] in
  let before := mkComponent (mkScreen [] "" "" "" "" false) [] "old error" in
  cylinders (loadCylinders answer (Some "token") before)
  = [sampleCylinder "a" 20000 3; sampleCylinder "b" 15000 1]
  /\ error (loadCylinders answer (Some "token") before) = ""
  /\ loading (screen (loadCylinders answer (Some "token") before)) = false.
Proof.
  intros answer before.
  destruct (loadCylinders_lists_orderable answer (Some "token") before) as [_ Hloaded].
  destruct (Hloaded "token" eq_refl eq_refl) as (Hloading & _ & Hdata & _).
  destruct (Hdata _ eq_refl) as (Hlist & Herror & _).
  split; [exact Hlist|]. split; [exact Herror | exact Hloading].
Defined.

(** A cart filled only with cylinders from one loaded list stays within
    stock: when the answered cylinders have distinct ids and every
    addToCart takes a cylinder the list shows, every item of the cart has
    a quantity between 1 and its stockQuantity. *)
Theorem cart_from_loaded_list_in_range
    (data : list GasCylinder.t) (cs : list CartCall) :
  List.NoDup (map GasCylinder.id data) ->
  (forall c, In c (added cs) -> In c (List.filter orderable data)) ->
  Forall quantity_in_range (calls cs []).
Proof.
  intros Hdistinct Hshown.
  destruct (calls_well_formed (List.filter orderable data)) with (cs := cs) (cart := @nil CartItem)
    as [_ Hall].
  - intros c Hc. apply filter_In in Hc as [_ Horderable].
    unfold orderable in Horderable. apply andb_true_iff in Horderable as [_ Hstock]. lia.
  - intros c1 c2 H1 H2 Hid.
    apply filter_In in H1 as [H1 _]. apply filter_In in H2 as [H2 _].
    clear Hshown. induction data as [|d rest IH]; [destruct H1|].
    cbn in Hdistinct. apply List.NoDup_cons_iff in Hdistinct as [Hfresh Hdistinct].
    destruct H1 as [<-|H1], H2 as [<-|H2]; auto.
    + exfalso. apply Hfresh. rewrite Hid. now apply in_map.
    + exfalso. apply Hfresh. rewrite <- Hid. now apply in_map.
  - exact Hshown.
  - split; constructor.
  - eapply List.Forall_impl; [|exact Hall]. now intros item [_ Hrange].
Qed.

Lemma cart_from_loaded_list_in_range_witness :
  Forall quantity_in_range
         (calls [AddToCart (sampleCylinder "a" 20000 2);
                 AddToCart (sampleCylinder "a" 20000 2);
                 AddToCart (sampleCylinder "a" 20000 2);
                 UpdateQuantity "a" 1]
                []).
Proof.
  apply (cart_from_loaded_list_in_range
           [sampleCylinder "a" 20000 2; sampleCylinder "gone" 15000 0]).
  - cbn. repeat constructor; cbn; intuition discriminate.
  - intros c Hc. cbn in Hc. cbn.
    repeat (destruct Hc as [<-|Hc]; [now left|]). destruct Hc.
Defined.

(** *** From the screen to the API *)

Lemma placeOrder_submitted
    (parseFloat : string -> float) (user : option User.t) (token : option string)
    (s : Screen) (orderData : CreateOrderPayload) (t : string) :
  placeOrder parseFloat user token s = Submitted orderData t ->
  exists u,
    user = Some u /\ token = Some t /\ JS.truthy_string t = true
    /\ truthy (canPlaceOrder s) = true
    /\ orderData
       = mkCreateOrderPayload
           (User.id u)
           (Some (map (fun item => mkOrderItemPayload (item_id item) (quantity item))
                      (cart s)))
           (JS.trim (deliveryAddress s))
           (parseFloat (deliveryLat s)) (parseFloat (deliveryLng s))
           (if JS.truthy_string (JS.trim (instructions s))
            then Some (JS.trim (instructions s)) else None).
Proof.
  unfold placeOrder.
  destruct user as [u|]; [|discriminate].
  destruct token as [tok|]; [|discriminate].
  destruct (JS.truthy_string tok) eqn:Htok; cbn; [|discriminate].
  destruct (truthy (canPlaceOrder s)) eqn:Hcan; cbn; [|discriminate].
  destruct (invalidCoordinates _ _); [discriminate|].
  intros [= <- <-]. exists u. repeat split; assumption.
Qed.

(** The payload [placeOrder] hands to [createOrder] lists the cart item
    by item, in order, with each item's id and quantity; its address is
    the trimmed, non-empty delivery address; its special instructions are
    the trimmed text, and are left out when that is empty.  [createOrder]
    never refuses such a payload for its items or its address: when the
    user's id is not empty it makes the POST to /orders. *)
Theorem placeOrder_payload_reaches_the_api
    (parseFloat : string -> float) (user : option User.t) (token : option string)
    (s : Screen) (orderData : CreateOrderPayload) (t : string)
    (fetch : FetchCall -> JS.Result Response) (JSON_stringify : Payload -> string)
    (sent : list FetchCall) :
  placeOrder parseFloat user token s = Submitted orderData t ->
  items orderData
  = Some (map (fun item => mkOrderItemPayload (item_id item) (quantity item)) (cart s))
  /\ cart s <> []
  /\ Api.deliveryAddress orderData = JS.trim (deliveryAddress s)
  /\ Api.deliveryAddress orderData <> ""
  /\ specialInstructions orderData <> Some ""
  /\ (specialInstructions orderData = None <-> JS.trim (instructions s) = "")
  /\ (forall text, specialInstructions orderData = Some text ->
        text = JS.trim (instructions s))
  /\ (customerId orderData <> "" ->
      snd (createOrder fetch JSON_stringify orderData t sent)
      = orderCall JSON_stringify orderData t :: sent).
Proof.
  intros Hsubmitted.
  apply placeOrder_submitted in Hsubmitted as (u & _ & _ & _ & Hcan & ->).
  rewrite canPlaceOrder_truthy in Hcan.
  repeat (apply andb_true_iff in Hcan as [Hcan ?]).
  assert (Hcart : cart s <> []) by (destruct (cart s); [discriminate Hcan | discriminate]).
  assert (Haddress : JS.trim (deliveryAddress s) <> "")
    by (destruct (JS.trim (deliveryAddress s)); [discriminate | discriminate]).
  cbn. split; [reflexivity|]. split; [exact Hcart|]. split; [reflexivity|].
  split; [exact Haddress|].
  destruct (JS.trim (instructions s)) as [|c text] eqn:Htrim; cbn.
  - split; [discriminate|]. split; [tauto|]. split; [discriminate|].
    intros Hid. unfold createOrder. cbn.
    destruct (User.id u); [congruence|]. cbn.
    destruct (cart s); [congruence|]. cbn.
    destruct (JS.trim (deliveryAddress s)); [congruence|]. cbn.
    apply ApiSpec.request_sends_one.
  - split; [discriminate|]. split; [split; discriminate|].
    split; [now intros ? [= <-]|].
    intros Hid. unfold createOrder. cbn.
    destruct (User.id u); [congruence|]. cbn.
    destruct (cart s); [congruence|]. cbn.
    destruct (JS.trim (deliveryAddress s)); [congruence|]. cbn.
    apply ApiSpec.request_sends_one.
Qed.

Lemma placeOrder_payload_reaches_the_api_witness :
  let s := mkScreen [mkCartItem (sampleCylinder "a" 20000 3) 2;
                     mkCartItem (sampleCylinder "b" 15000 1) 1]
                    "  Plot 1, Kampala Road " "0" "32" "   " false in
  exists orderData,
    placeOrder parseNumeral (Some sampleUser) (Some "token") s = Submitted orderData "token"
    /\ items orderData = Some [mkOrderItemPayload "a" 2; mkOrderItemPayload "b" 1]
    /\ Api.deliveryAddress orderData = "Plot 1, Kampala Road"
    /\ specialInstructions orderData = None
    /\ snd (createOrder (answering 201 (Returned (JObject []))) (fun _ => "{}")
                        orderData "token" [])
       = [orderCall (fun _ => "{}") orderData "token"].
Proof.
  intros s.
  destruct (placeOrder parseNumeral (Some sampleUser) (Some "token") s)
    as [notice|orderData t] eqn:Hplace; [discriminate Hplace|].
  destruct (placeOrder_submitted _ _ _ _ _ _ Hplace) as (u & [= <-] & [= <-] & _ & _ & Hdata).
  destruct (placeOrder_payload_reaches_the_api
              parseNumeral (Some sampleUser) (Some "token") s orderData "token"
              (answering 201 (Returned (JObject []))) (fun _ => "{}") [] Hplace)
    as (Hitems & _ & Haddress & _ & _ & [_ Hnone] & _ & Hsent).
  exists orderData. split; [reflexivity|]. split; [exact Hitems|].
  split; [exact Haddress|]. split; [apply Hnone; reflexivity|].
  apply Hsent. rewrite Hdata. discriminate.
Defined.

(** [placeOrder] never reaches the API without a signed-in user and a
    token, with an empty cart, with a blank address, with an empty
    latitude or longitude field, or while a submission is in flight: it
    stops at the "Error" or the "Incomplete Order" alert. *)
Theorem placeOrder_refuses_incomplete_orders
    (parseFloat : string -> float) (user : option User.t) (token : option string)
    (s : Screen) :
  user = None \/ JS.truthy_opt token = false
  \/ cart s = [] \/ JS.trim (deliveryAddress s) = ""
  \/ deliveryLat s = "" \/ deliveryLng s = "" \/ loading s = true ->
  placeOrder parseFloat user token s = Refused (mkAlert "Error" "Please log in first")
  \/ placeOrder parseFloat user token s
     = Refused (mkAlert "Incomplete Order"
                  "Please fill all required fields and add items").
Proof.
  intros Hincomplete. unfold placeOrder.
  destruct user as [u|]; [|now left].
  destruct token as [t|]; [|now left].
  destruct (JS.truthy_string t) eqn:Ht; cbn; [|now left].
  right. rewrite canPlaceOrder_truthy.
  destruct Hincomplete as [H|[H|[H|[H|[H|[H|H]]]]]];
    try discriminate; try (cbn in H; congruence);
    rewrite H; cbn; rewrite ?andb_false_r; reflexivity.
Qed.

Lemma placeOrder_refuses_incomplete_orders_witness :
  placeOrder parseNumeral (Some sampleUser) (Some "token")
             (mkScreen [] "Plot 1" "0" "32" "" false)
  = Refused (mkAlert "Incomplete Order" "Please fill all required fields and add items")
  /\ placeOrder parseNumeral (Some sampleUser) (Some "token")
                (mkScreen [mkCartItem (sampleCylinder "a" 20000 3) 2]
                          "Plot 1" "0" "32" "" true)
     = Refused (mkAlert "Incomplete Order" "Please fill all required fields and add items").
Proof.
  split.
  - destruct (placeOrder_refuses_incomplete_orders
                parseNumeral (Some sampleUser) (Some "token")
                (mkScreen [] "Plot 1" "0" "32" "" false)) as [Herror|Hincomplete].
    + right. right. left. reflexivity.
    + discriminate Herror.
    + exact Hincomplete.
  - destruct (placeOrder_refuses_incomplete_orders
                parseNumeral (Some sampleUser) (Some "token")
                (mkScreen [mkCartItem (sampleCylinder "a" 20000 3) 2]
                          "Plot 1" "0" "32" "" true)) as [Herror|Hincomplete].
    + repeat right. reflexivity.
    + discriminate Herror.
    + exact Hincomplete.
Defined.

(** *** Changing the cart in place *)

Lemma find_at (id : string) (before after : list CartItem) (item : CartItem) :
  ~ In id (map item_id before) -> item_id item = id ->
  find (fun x => String.eqb (item_id x) id) (before ++ item :: after) = Some item.
Proof.
  intros Hfresh Hid. induction before as [|x rest IH]; cbn.
  - now rewrite Hid, String.eqb_refl.
  - destruct (String.eqb_spec (item_id x) id) as [Heq|_].
    + exfalso. apply Hfresh. now left.
    + apply IH. intros Hin. apply Hfresh. now right.
Qed.

Lemma increment_other_ids (id : string) (l : list CartItem) :
  ~ In id (map item_id l) ->
  map (fun x => if String.eqb (item_id x) id
                then with_quantity x (quantity x + 1) else x) l = l.
Proof.
  induction l as [|x rest IH]; intros Hfresh; cbn; [reflexivity|].
  destruct (String.eqb_spec (item_id x) id) as [Heq|_].
  - exfalso. apply Hfresh. now left.
  - f_equal. apply IH. intros Hin. apply Hfresh. now right.
Qed.

Lemma total_app (l1 l2 : list CartItem) :
  total (l1 ++ l2) = total l1 + sum_price_times_quantity l2.
Proof.
  unfold total, subtotal. rewrite !subtotal_from.
  induction l1 as [|x rest IH]; cbn; lia.
Qed.

(** On a cart with distinct ids, [addToCart] for a cylinder already in
    the cart changes that item alone, in place: below the cylinder's stock
    its quantity grows by one and the total grows by the price the item
    carries; at or above it the cart is returned unchanged with the alert
    "Only <stock> available".  For a cylinder not in the cart the total
    grows by the cylinder's price. *)
Theorem addToCart_changes_one_item
    (c : GasCylinder.t) (before after : list CartItem) (item : CartItem) :
  List.NoDup (map item_id (before ++ item :: after)) ->
  item_id item = GasCylinder.id c ->
  (quantity item < GasCylinder.stockQuantity c ->
   addToCart c (before ++ item :: after)
   = (before ++ with_quantity item (quantity item + 1) :: after, [])
   /\ total (fst (addToCart c (before ++ item :: after)))
      = total (before ++ item :: after) + item_price item)
  /\ (GasCylinder.stockQuantity c <= quantity item ->
      addToCart c (before ++ item :: after)
      = (before ++ item :: after,
         [mkAlert "Stock Limit"
                  ("Only " +:+ pretty (GasCylinder.stockQuantity c) +:+ " available")]))
  /\ (forall fresh : GasCylinder.t,
        ~ In (GasCylinder.id fresh) (map item_id (before ++ item :: after)) ->
        total (fst (addToCart fresh (before ++ item :: after)))
        = total (before ++ item :: after) + GasCylinder.price fresh).
Proof.
  intros Hnd Hid.
  assert (Hparts : ~ In (GasCylinder.id c) (map item_id before)
                   /\ ~ In (GasCylinder.id c) (map item_id after)).
  { rewrite map_app in Hnd. cbn in Hnd. apply NoDup_middle in Hnd. now rewrite Hid in Hnd. }
  destruct Hparts as [Hbefore Hafter].
  assert (Hfind := find_at (GasCylinder.id c) before after item Hbefore Hid).
  split; [|split].
  - intros Hroom. unfold addToCart. rewrite Hfind.
    destruct (Z.geb_spec (quantity item) (GasCylinder.stockQuantity c)); [lia|].
    rewrite map_app. cbn [map]. rewrite Hid, String.eqb_refl.
    rewrite !increment_other_ids by assumption.
    split; [reflexivity|]. cbn [fst].
    rewrite !total_app. cbn. unfold item_price. cbn. lia.
  - intros Hlimit. unfold addToCart. rewrite Hfind.
    destruct (Z.geb_spec (quantity item) (GasCylinder.stockQuantity c)); [reflexivity | lia].
  - intros fresh Hfresh. unfold addToCart.
    rewrite find_absent.
    + cbn [fst]. rewrite total_app. cbn. unfold item_price. cbn. lia.
    + intros x Hx Heq. apply Hfresh. rewrite <- Heq. now apply in_map.
Qed.

Lemma addToCart_changes_one_item_witness :
  let a := sampleCylinder "a" 20000 2 in
  let b := sampleCylinder "b" 15000 5 in
  addToCart b [mkCartItem a 1; mkCartItem b 1]
  = ([mkCartItem a 1; mkCartItem b 2], [])
  /\ total (fst (addToCart b [mkCartItem a 1; mkCartItem b 1])) = 40000 + 15000
  /\ addToCart a [mkCartItem a 2; mkCartItem b 1]
     = ([mkCartItem a 2; mkCartItem b 1], [mkAlert "Stock Limit" "Only 2 available"]).
Proof.
  intros a b.
  destruct (addToCart_changes_one_item b [mkCartItem a 1] [] (mkCartItem b 1))
    as (Hgrow & _).
  { cbn. repeat constructor; cbn; intuition discriminate. }
  { reflexivity. }
  destruct (addToCart_changes_one_item a [] [mkCartItem b 1] (mkCartItem a 2))
    as (_ & Hlimit & _).
  { cbn. repeat constructor; cbn; intuition discriminate. }
  { reflexivity. }
  destruct Hgrow as [Hcart Htotal]; [cbn; lia|].
  split; [exact Hcart|]. split; [exact Htotal|].
  apply Hlimit. cbn. lia.
Defined.

(** On a cart with distinct ids, an [updateQuantity] that stays between 1
    and the item's stock changes that item alone, in place, and raises no
    alert; undoing it with the opposite change gives the cart back.  An
    update for an id that is not in the cart changes nothing. *)
Theorem updateQuantity_in_place_and_back
    (before after : list CartItem) (item : CartItem) (change : Z) :
  List.NoDup (map item_id (before ++ item :: after)) ->
  quantity_in_range item ->
  1 <= quantity item + change <= item_stock item ->
  updateQuantity (item_id item) change (before ++ item :: after)
  = (before ++ with_quantity item (quantity item + change) :: after, [])
  /\ fst (updateQuantity (item_id item) (- change)
            (fst (updateQuantity (item_id item) change (before ++ item :: after))))
     = before ++ item :: after
  /\ (forall other delta,
        ~ In other (map item_id (before ++ item :: after)) ->
        updateQuantity other delta (before ++ item :: after)
        = (before ++ item :: after, [])).
Proof.
  intros Hnd Hitem_range Hrange.
  assert (Hitem : updateItem (item_id item) change item
                  = (Some (with_quantity item (quantity item + change)), [])).
  { unfold updateItem. rewrite String.eqb_refl.
    destruct (Z.leb_spec (quantity item + change) 0); [lia|].
    destruct (Z.gtb_spec (quantity item + change) (item_stock item)); [lia | reflexivity]. }
  assert (Hquiet : forall id delta l,
             ~ In id (map item_id l) ->
             map (updateItem id delta) l = map (fun x => (Some x, [])) l).
  { intros id delta l. induction l as [|x rest IH]; intros Hfresh; cbn; [reflexivity|].
    unfold updateItem at 1.
    destruct (String.eqb_spec (item_id x) id) as [Heq|_].
    - exfalso. apply Hfresh. now left.
    - f_equal. apply IH. intros Hin. apply Hfresh. now right. }
  assert (Hsilent : forall l : list CartItem,
             concat (map snd (map (fun x : CartItem => (Some x, @nil Alert)) l)) = []).
  { induction l; cbn; auto. }
  assert (Hkept : forall l : list CartItem,
             omap fst (map (fun x : CartItem => (Some x, @nil Alert)) l) = l).
  { induction l as [|x rest IH]; cbn; [reflexivity | now rewrite IH]. }
  pose proof Hnd as Hparts. rewrite map_app in Hparts. cbn in Hparts.
  apply NoDup_middle in Hparts as [Hbefore Hafter].
  split; [|split].
  - unfold updateQuantity. rewrite map_app. cbn [map].
    rewrite Hitem, !Hquiet by assumption.
    rewrite map_app, concat_app, omap_app. cbn.
    now rewrite !Hsilent, !Hkept.
  - rewrite (updateQuantity_at _ change before after item Hnd eq_refl), Hitem. cbn [fst].
    set (item' := with_quantity item (quantity item + change)).
    assert (Hnd' : List.NoDup (map item_id (before ++ item' :: after)))
      by (rewrite map_app in *; exact Hnd).
    rewrite (updateQuantity_at (item_id item) (- change) before after item' Hnd' eq_refl).
    unfold quantity_in_range in Hitem_range. unfold updateItem, item_stock in *. cbn.
    rewrite String.eqb_refl.
    destruct (Z.leb_spec (quantity item + change + - change) 0); [lia|].
    destruct (Z.gtb_spec (quantity item + change + - change)
                         (GasCylinder.stockQuantity (cylinder item))); [lia|].
    cbn. destruct item as [cyl q]. cbn.
    replace (q + change + - change) with q by lia. reflexivity.
  - intros other delta Hother. unfold updateQuantity.
    rewrite Hquiet by assumption. now rewrite Hsilent, Hkept.
Qed.

Lemma updateQuantity_in_place_and_back_witness :
  let a := sampleCylinder "a" 20000 3 in
  let b := sampleCylinder "b" 15000 5 in
  updateQuantity "b" 2 [mkCartItem a 1; mkCartItem b 1]
  = ([mkCartItem a 1; mkCartItem b 3], [])
  /\ fst (updateQuantity "b" (-2)
            (fst (updateQuantity "b" 2 [mkCartItem a 1; mkCartItem b 1])))
     = [mkCartItem a 1; mkCartItem b 1]
  /\ updateQuantity "c" 1 [mkCartItem a 1; mkCartItem b 1]
     = ([mkCartItem a 1; mkCartItem b 1], []).
Proof.
  intros a b.
  destruct (updateQuantity_in_place_and_back [mkCartItem a 1] [] (mkCartItem b 1) 2)
    as (Hplace & Hback & Hother).
  - cbn. repeat constructor; cbn; intuition discriminate.
  - unfold quantity_in_range, item_stock. cbn. lia.
  - unfold item_stock. cbn. lia.
  - split; [exact Hplace|]. split; [exact Hback|].
    apply Hother. cbn. intuition discriminate.
Defined.

End OrderScreenSpec.

(** ** The order history *)

Module OrdersSpec.
Import Api Orders.

Section SignedIn.
Variable getAllOrders : string -> QueryParams -> JS.Result (PaginatedResponse Order.t).
Variables (u : User.t) (t : string).
Hypothesis token_present : JS.truthy_string t = true.

Lemma loadMore_answered (s : State) (response : PaginatedResponse Order.t) :
  loadingMore s = false -> hasMore s = true ->
  getAllOrders t (pageParams u (page s + 1)) = Returned response ->
  loadMore getAllOrders (Some u) (Some t) s
  = mkState (orders s ++ data response) false false "" (page s + 1)
            (Z.of_nat (length (data response)) =? ITEMS_PER_PAGE) false.
Proof.
  intros Hidle Hmore Hanswer. unfold loadMore, loadOrders.
  rewrite Hidle, Hmore, token_present. cbn. rewrite Hanswer.
  now destruct (page s + 1 =? 1).
Qed.

Lemma onRefresh_answered (s : State) (response : PaginatedResponse Order.t) :
  getAllOrders t (pageParams u 1) = Returned response ->
  onRefresh getAllOrders (Some u) (Some t) s
  = mkState (data response) false false "" 1
            (Z.of_nat (length (data response)) =? ITEMS_PER_PAGE) false.
Proof.
  intros Hanswer. unfold onRefresh, loadOrders.
  rewrite token_present. cbn. now rewrite Hanswer.
Qed.

End SignedIn.



(** A refresh always asks for page 1 and ends with every loading flag
    cleared: an answer replaces the orders shown, a failure empties the
    list and shows a non-empty error. *)
Theorem onRefresh_replaces_orders
    (getAllOrders : string -> QueryParams -> JS.Result (PaginatedResponse Order.t))
    (u : User.t) (t : string) (s : State) :
  JS.truthy_string t = true ->
  let s' := onRefresh getAllOrders (Some u) (Some t) s in
  page s' = 1
  /\ loading s' = false /\ loadingMore s' = false /\ refreshing s' = false
  /\ (forall response,
        getAllOrders t (pageParams u 1) = Returned response ->
        orders s' = data response
        /\ hasMore s' = (Z.of_nat (length (data response)) =? 10)
        /\ error s' = "")
  /\ (forall err,
        getAllOrders t (pageParams u 1) = Threw err ->
        orders s' = [] /\ hasMore s' = hasMore s /\ error s' <> "").
Proof.
  intros Htoken. cbn zeta. unfold onRefresh, loadOrders. rewrite Htoken. cbn.
  destruct (getAllOrders t (pageParams u 1)) as [response|err]; cbn.
  - split; [reflexivity|]. split; [reflexivity|]. split; [reflexivity|].
    split; [reflexivity|].
    split; [intros ? [= <-]; repeat split | intros ? [=]].
  - split; [reflexivity|]. split; [reflexivity|]. split; [reflexivity|].
    split; [reflexivity|]. split; [discriminate|].
    intros ? [= <-]. split; [reflexivity|]. split; [reflexivity|].
    unfold JS.or_else. destruct (JS.message err) as [[|c m]|]; cbn; discriminate.
Qed.

Lemma onRefresh_replaces_orders_witness :
  let stale := sampleOrderOf "1001" PENDING in
  let failing := fun (_ : string) (_ : QueryParams) =>
    @Threw (PaginatedResponse Order.t) (JS.newError "Network request failed") in
  let s := mkState [stale] false false "" 3 true false in
  orders (onRefresh failing (Some sampleUser) (Some "token") s) = []
  /\ page (onRefresh failing (Some sampleUser) (Some "token") s) = 1.
Proof.
  intros stale failing s.
  destruct (onRefresh_replaces_orders failing sampleUser "token" s eq_refl)
    as (Hpage & _ & _ & _ & _ & Hfailed).
  destruct (Hfailed _ eq_refl) as (Horders & _).
  split; [exact Horders | exact Hpage].
Defined.

Lemma pages_invariant
    (getAllOrders : string -> QueryParams -> JS.Result (PaginatedResponse Order.t))
    (u : User.t) (t : string) (book : Z -> PaginatedResponse Order.t)
    (n : nat) (s : State) :
  JS.truthy_string t = true ->
  (forall k, 1 <= k <= Z.of_nat n + 1 ->
     getAllOrders t (pageParams u k) = Returned (book k)) ->
  (forall k, 1 <= k <= Z.of_nat n ->
     Z.of_nat (length (data (book k))) = 10) ->
  Nat.iter n (loadMore getAllOrders (Some u) (Some t))
           (onRefresh getAllOrders (Some u) (Some t) s)
  = mkState (pagesFrom book 1 (S n)) false false "" (Z.of_nat n + 1)
            (Z.of_nat (length (data (book (Z.of_nat n + 1)))) =? ITEMS_PER_PAGE) false.
Proof.
  intros Htoken. induction n as [|n IH]; intros Hbook Hfull.
  - cbn [Nat.iter].
    rewrite (onRefresh_answered getAllOrders u t Htoken s (book 1)) by (apply Hbook; lia).
    unfold pagesFrom. replace (seqZ 1 (Z.of_nat 1)) with [1] by reflexivity.
    cbn. now rewrite app_nil_r.
  - rewrite Nat.iter_succ, IH.
    2: { intros k Hk. apply Hbook. lia. }
    2: { intros k Hk. apply Hfull. lia. }
    rewrite (loadMore_answered getAllOrders u t Htoken _
               (book (Z.of_nat n + 1 + 1))).
    + cbn. replace (Z.of_nat (S n) + 1) with (Z.of_nat n + 1 + 1) by lia.
      f_equal. unfold pagesFrom.
      replace (Z.of_nat (S (S n))) with (Z.of_nat (S n) + 1) by lia.
      rewrite seqZ_app by lia. rewrite map_app, concat_app. f_equal.
      rewrite (seqZ_cons _ 1) by lia. cbn. rewrite app_nil_r. do 2 f_equal. lia.
    + reflexivity.
    + cbn. apply Z.eqb_eq. apply Hfull. lia.
    + cbn. apply Hbook. lia.
Qed.

(** Scrolling through a history whose pages are full: after a refresh
    and [n] calls of [loadMore], when the server answered pages 1 to n+1
    and pages 1 to n held 10 orders each, the list shows pages 1, 2, ...,
    n+1 one after the other, each once, and the page counter is n+1. *)
Theorem pages_are_shown_in_order
    (getAllOrders : string -> QueryParams -> JS.Result (PaginatedResponse Order.t))
    (u : User.t) (t : string) (book : Z -> PaginatedResponse Order.t)
    (n : nat) (s : State) :
  JS.truthy_string t = true ->
  (forall k, 1 <= k <= Z.of_nat n + 1 ->
     getAllOrders t (pageParams u k) = Returned (book k)) ->
  (forall k, 1 <= k <= Z.of_nat n ->
     Z.of_nat (length (data (book k))) = 10) ->
  let s' := Nat.iter n (loadMore getAllOrders (Some u) (Some t))
                     (onRefresh getAllOrders (Some u) (Some t) s) in
  orders s' = pagesFrom book 1 (S n)
  /\ page s' = Z.of_nat n + 1
  /\ error s' = ""
  /\ hasMore s' = (Z.of_nat (length (data (book (Z.of_nat n + 1)))) =? 10).
Proof.
  intros Htoken Hbook Hfull. cbn zeta.
  rewrite (pages_invariant getAllOrders u t book n s Htoken Hbook Hfull).
  repeat split.
Qed.

Lemma pages_are_shown_in_order_witness :
  let full := repeat (sampleOrderOf "1001" DELIVERED) 10 in
  let last := [sampleOrderOf "1011" PENDING] in
  let book := fun k : Z =>
    if k =? 1 then mkPaginatedResponse full (mkPagination 1 10 11 2)
    else mkPaginatedResponse last (mkPagination 2 10 11 2) in
  let s' := Nat.iter 1 (loadMore (answerFrom book) (Some sampleUser) (Some "token"))
                     (onRefresh (answerFrom book) (Some sampleUser) (Some "token")
                                initialState) in
  orders s' = full ++ last /\ page s' = 2 /\ hasMore s' = false.
Proof.
  intros full last book.
  destruct (pages_are_shown_in_order
              (answerFrom book) sampleUser "token" book 1 initialState)
    as (Horders & Hpage & _ & Hmore).
  - reflexivity.
  - intros k Hk. reflexivity.
  - intros k Hk. replace k with 1 by (cbn in Hk; lia). reflexivity.
  - split; [exact Horders|]. split; [exact Hpage | exact Hmore].
Defined.

End OrdersSpec.

(** ** The registration form *)

Module SignupSpec.
Import Api Regex Signup.

(** *** Strings *)

Lemma append_nil_r (s : string) : s +:+ "" = s.
Proof. induction s as [|c s IH]; [reflexivity | exact (f_equal (String c) IH)]. Qed.

Lemma append_assoc (s1 s2 s3 : string) : (s1 +:+ s2) +:+ s3 = s1 +:+ (s2 +:+ s3).
Proof. induction s1 as [|c s1 IH]; [reflexivity | exact (f_equal (String c) IH)]. Qed.

Lemma append_empty (s1 s2 : string) : s1 +:+ s2 = "" -> s1 = "" /\ s2 = "".
Proof. destruct s1; cbn; [auto | discriminate]. Qed.

Lemma length_append (s1 s2 : string) :
  String.length (s1 +:+ s2) = (String.length s1 + String.length s2)%nat.
Proof. induction s1 as [|c s1 IH]; [reflexivity | exact (f_equal S IH)]. Qed.

Lemma all_append (p : ascii -> bool) (s1 s2 : string) :
  all p (s1 +:+ s2) = all p s1 && all p s2.
Proof.
  induction s1 as [|c s1 IH]; [reflexivity|].
  change (p c && all p (s1 +:+ s2) = p c && all p s1 && all p s2).
  now rewrite IH, andb_assoc.
Qed.

Lemma some_append (p : ascii -> bool) (s1 s2 : string) :
  some p (s1 +:+ s2) = some p s1 || some p s2.
Proof.
  induction s1 as [|c s1 IH]; [reflexivity|].
  change (p c || some p (s1 +:+ s2) = p c || some p s1 || some p s2).
  now rewrite IH, orb_assoc.
Qed.

Lemma split_at (n : nat) (s : string) :
  (n <= String.length s)%nat ->
  exists s1 s2, s = s1 +:+ s2 /\ String.length s1 = n.
Proof.
  revert s. induction n as [|n IH]; intros s Hn.
  - now exists "", s.
  - destruct s as [|c s]; cbn in Hn; [lia|].
    destruct (IH s) as (s1 & s2 & -> & Hlen); [lia|].
    exists (String c s1), s2. cbn. auto.
Qed.

(** *** The matcher decides the language *)

Lemma nullable_spec (r : Regex.t) : nullable r = true <-> Matches r "".
Proof.
  split.
  - induction r; cbn; intros Hnull; try discriminate.
    + constructor.
    + apply andb_true_iff in Hnull as [H1 H2].
      exact (MatchSeq r1 r2 "" "" (IHr1 H1) (IHr2 H2)).
    + apply orb_true_iff in Hnull as [H|H];
        [apply MatchAltL | apply MatchAltR]; auto.
    + constructor.
  - intros Hmatch. remember "" as s eqn:Hs.
    induction Hmatch; subst; cbn; try discriminate; try reflexivity.
    + apply append_empty in Hs as [-> ->].
      now rewrite IHHmatch1, IHHmatch2.
    + now rewrite IHHmatch.
    + rewrite IHHmatch; [apply orb_true_r | reflexivity].
Qed.

Lemma after_sound (c : ascii) (r : Regex.t) (s : string) :
  Matches (after c r) s -> Matches r (String c s).
Proof.
  revert s. induction r; cbn; intros s Hmatch.
  - inversion Hmatch.
  - inversion Hmatch.
  - destruct (p c) eqn:Hp; inversion Hmatch; subst. now constructor.
  - assert (Hseq : forall s, Matches (Seq (after c r1) r2) s -> Matches (Seq r1 r2) (String c s)).
    { intros s' Hs'. inversion Hs' as [ | | ? ? s1 s2 Hm1 Hm2 | | | | ]; subst.
      exact (MatchSeq r1 r2 (String c s1) s2 (IHr1 _ Hm1) Hm2). }
    destruct (nullable r1) eqn:Hnull; [|now apply Hseq].
    inversion Hmatch as [ | | | ? ? ? Hm | ? ? ? Hm | | ]; subst; [now apply Hseq|].
    apply nullable_spec in Hnull.
    exact (MatchSeq r1 r2 "" (String c s) Hnull (IHr2 _ Hm)).
  - inversion Hmatch as [ | | | ? ? ? Hm | ? ? ? Hm | | ]; subst;
      [apply MatchAltL | apply MatchAltR]; auto.
  - inversion Hmatch as [ | | ? ? s1 s2 Hm1 Hm2 | | | | ]; subst.
    exact (MatchStarCons r (String c s1) s2 (IHr _ Hm1) Hm2).
Qed.

Lemma after_complete (c : ascii) (r : Regex.t) (s : string) :
  Matches r (String c s) -> Matches (after c r) s.
Proof.
  intros Hmatch. remember (String c s) as cs eqn:Hcs. revert c s Hcs.
  induction Hmatch; intros c' s' Hcs; try discriminate.
  - injection Hcs as -> <-. cbn. rewrite H. constructor.
  - cbn. destruct s1 as [|c1 s1].
    + change (s2 = String c' s') in Hcs. subst s2.
      assert (Hnull : nullable r1 = true) by now apply nullable_spec.
      rewrite Hnull. apply MatchAltR. now apply IHHmatch2.
    + change (String c1 (s1 +:+ s2) = String c' s') in Hcs.
      injection Hcs as -> <-.
      assert (Hseq : Matches (Seq (after c' r1) r2) (s1 +:+ s2))
        by (constructor; [now apply IHHmatch1 | assumption]).
      destruct (nullable r1); [now apply MatchAltL | assumption].
  - cbn. apply MatchAltL. now apply IHHmatch.
  - cbn. apply MatchAltR. now apply IHHmatch.
  - destruct s1 as [|c1 s1].
    + change (s2 = String c' s') in Hcs. subst s2. now apply IHHmatch2.
    + change (String c1 (s1 +:+ s2) = String c' s') in Hcs.
      injection Hcs as -> <-. cbn.
      constructor; [now apply IHHmatch1 | assumption].
Qed.

Lemma test_spec (r : Regex.t) (s : string) : test r s = true <-> Matches r s.
Proof.
  revert r. induction s as [|c s IH]; intros r; cbn.
  - apply nullable_spec.
  - rewrite IH. split; [apply after_sound | apply after_complete].
Qed.

(** *** Reading the expressions *)

Lemma matches_seq (r1 r2 : Regex.t) (s : string) :
  Matches (Seq r1 r2) s
  <-> exists s1 s2, s = s1 +:+ s2 /\ Matches r1 s1 /\ Matches r2 s2.
Proof.
  split.
  - intros H. inversion H as [ | | ? ? s1 s2 Hm1 Hm2 | | | | ]; subst. eauto.
  - intros (s1 & s2 & -> & H1 & H2). now constructor.
Qed.

Lemma matches_opt (r : Regex.t) (s : string) :
  Matches (Opt r) s <-> s = "" \/ Matches r s.
Proof.
  unfold Opt. split.
  - intros H. inversion H as [ | | | ? ? ? Hm | ? ? ? Hm | | ]; subst;
      [left; now inversion Hm | now right].
  - intros [->|H]; [apply MatchAltL; constructor | now apply MatchAltR].
Qed.

Lemma matches_class (p : ascii -> bool) (s : string) :
  Matches (Class p) s <-> exists c, s = String c "" /\ p c = true.
Proof.
  split.
  - intros H. inversion H; subst. eauto.
  - intros (c & -> & Hp). now constructor.
Qed.

Lemma matches_star_class (p : ascii -> bool) (s : string) :
  Matches (Star (Class p)) s <-> all p s = true.
Proof.
  split.
  - intros H. remember (Star (Class p)) as r eqn:Hr.
    induction H; try discriminate; [reflexivity|].
    injection Hr as ->. apply matches_class in H as (c & -> & Hp).
    change (p c && all p s2 = true). rewrite Hp. now apply IHMatches2.
  - induction s as [|c s IH]; cbn; intros Hall; [constructor|].
    apply andb_true_iff in Hall as [Hp Hall].
    exact (MatchStarCons (Class p) (String c "") s (MatchClass p c Hp) (IH Hall)).
Qed.

Lemma matches_plus_class (p : ascii -> bool) (s : string) :
  Matches (Plus (Class p)) s <-> s <> "" /\ all p s = true.
Proof.
  unfold Plus. rewrite matches_seq. split.
  - intros (s1 & s2 & -> & H1 & H2).
    apply matches_class in H1 as (c & -> & Hp). apply matches_star_class in H2.
    split; [discriminate|]. change (p c && all p s2 = true). now rewrite Hp.
  - intros [Hne Hall]. destruct s as [|c s]; [congruence|].
    cbn in Hall. apply andb_true_iff in Hall as [Hp Hall].
    exists (String c ""), s. split; [reflexivity|].
    split; [now constructor | now apply matches_star_class].
Qed.

Lemma matches_exactly_class (p : ascii -> bool) (n : nat) (s : string) :
  Matches (Exactly n (Class p)) s <-> String.length s = n /\ all p s = true.
Proof.
  revert s. induction n as [|n IH]; intros s; cbn [Exactly].
  - split.
    + intros H. inversion H. auto.
    + intros [Hlen _]. destruct s; [constructor | discriminate].
  - rewrite matches_seq. split.
    + intros (s1 & s2 & -> & H1 & H2).
      apply matches_class in H1 as (c & -> & Hp). apply IH in H2 as [Hlen Hall].
      split; [change (S (String.length s2) = S n); now rewrite Hlen|].
      change (p c && all p s2 = true). now rewrite Hp.
    + intros [Hlen Hall]. destruct s as [|c s]; [discriminate|].
      cbn in Hlen, Hall. apply andb_true_iff in Hall as [Hp Hall].
      exists (String c ""), s. split; [reflexivity|].
      split; [now constructor | apply IH; split; [lia | assumption]].
Qed.

Lemma matches_atmost_class (p : ascii -> bool) (n : nat) (s : string) :
  Matches (AtMost n (Class p)) s <-> (String.length s <= n)%nat /\ all p s = true.
Proof.
  revert s. induction n as [|n IH]; intros s; cbn [AtMost].
  - split.
    + intros H. inversion H. cbn. auto.
    + intros [Hlen _]. destruct s; [constructor | cbn in Hlen; lia].
  - rewrite matches_opt, matches_seq. split.
    + intros [->|(s1 & s2 & -> & H1 & H2)]; [cbn; split; [lia | reflexivity]|].
      apply matches_class in H1 as (c & -> & Hp). apply IH in H2 as [Hlen Hall].
      split; [change (S (String.length s2) <= S n)%nat; lia|].
      change (p c && all p s2 = true). now rewrite Hp.
    + intros [Hlen Hall]. destruct s as [|c s]; [now left|]. right.
      cbn in Hlen, Hall. apply andb_true_iff in Hall as [Hp Hall].
      exists (String c ""), s. split; [reflexivity|].
      split; [now constructor | apply IH; split; [lia | assumption]].
Qed.

Lemma matches_between_class (p : ascii -> bool) (lo hi : nat) (s : string) :
  (lo <= hi)%nat ->
  Matches (Between lo hi (Class p)) s
  <-> (lo <= String.length s <= hi)%nat /\ all p s = true.
Proof.
  intros Hle. unfold Between. rewrite matches_seq. split.
  - intros (s1 & s2 & -> & H1 & H2).
    apply matches_exactly_class in H1 as [Hlen1 Hall1].
    apply matches_atmost_class in H2 as [Hlen2 Hall2].
    rewrite length_append, all_append, Hall1, Hall2. split; [lia | reflexivity].
  - intros [Hlen Hall].
    destruct (split_at lo s) as (s1 & s2 & -> & Hlen1); [lia|].
    rewrite length_append in Hlen. rewrite all_append in Hall.
    apply andb_true_iff in Hall as [Hall1 Hall2].
    exists s1, s2. split; [reflexivity|].
    split; [now apply matches_exactly_class|].
    apply matches_atmost_class. split; [lia | assumption].
Qed.

Lemma all_anything (s : string) : all (fun _ => true) s = true.
Proof. induction s; cbn; auto. Qed.

Lemma matches_contains_class (p : ascii -> bool) (s : string) :
  Matches (Contains (Class p)) s <-> some p s = true.
Proof.
  unfold Contains. rewrite matches_seq. split.
  - intros (s1 & s23 & -> & _ & H23).
    apply matches_seq in H23 as (s2 & s3 & -> & H2 & _).
    apply matches_class in H2 as (c & -> & Hp).
    rewrite some_append. change (some p (String c "" +:+ s3)) with (p c || some p s3).
    rewrite Hp. now rewrite orb_true_r.
  - induction s as [|c s IH]; cbn; intros Hsome; [discriminate|].
    destruct (p c) eqn:Hp.
    + exists "", (String c s). split; [reflexivity|]. split; [constructor|].
      apply matches_seq. exists (String c ""), s. split; [reflexivity|].
      split; [now constructor | apply matches_star_class, all_anything].
    + destruct (IH Hsome) as (s1 & s23 & -> & H1 & H23).
      exists (String c s1), s23. split; [reflexivity|]. split; [|assumption].
      apply matches_star_class. cbn. apply all_anything.
Qed.

Lemma char_eq (x c : ascii) : char x c = true <-> c = x.
Proof.
  unfold char, code. rewrite N.eqb_eq. split; [|now intros ->].
  intros Heq. apply (f_equal ascii_of_N) in Heq.
  now rewrite !ascii_N_embedding in Heq.
Qed.

(** *** What the form accepts *)

(** An e-mail address passes [isValidEmail] exactly when it is
    local@domain.tail with the three parts non-empty and free of white
    space and of "@". *)
Theorem isValidEmail_shape (address : string) :
  isValidEmail address = true
  <-> exists local domain tail,
        address = local +:+ String "@" (domain +:+ String "." tail)
        /\ local <> "" /\ domain <> "" /\ tail <> ""
        /\ all notSpaceNorAt local = true
        /\ all notSpaceNorAt domain = true
        /\ all notSpaceNorAt tail = true.
Proof.
  unfold isValidEmail, emailRegex. rewrite test_spec, matches_seq. split.
  - intros (local & rest1 & -> & Hlocal & Hrest1).
    apply matches_seq in Hrest1 as (at_ & rest2 & -> & Hat & Hrest2).
    apply matches_seq in Hrest2 as (domain & rest3 & -> & Hdomain & Hrest3).
    apply matches_seq in Hrest3 as (dot & tail & -> & Hdot & Htail).
    apply matches_class in Hat as (c1 & -> & Hc1).
    apply matches_class in Hdot as (c2 & -> & Hc2).
    apply matches_plus_class in Hlocal as [? ?].
    apply matches_plus_class in Hdomain as [? ?].
    apply matches_plus_class in Htail as [? ?].
    apply char_eq in Hc1, Hc2. subst c1 c2.
    exists local, domain, tail. auto 10.
  - intros (local & domain & tail & -> & H1 & H2 & H3 & A1 & A2 & A3).
    exists local, (String "@" (domain +:+ String "." tail)).
    split; [reflexivity|]. split; [now apply matches_plus_class|].
    apply matches_seq. exists (String "@" ""), (domain +:+ String "." tail).
    split; [reflexivity|]. split; [constructor; now apply char_eq|].
    apply matches_seq. exists domain, (String "." tail).
    split; [reflexivity|]. split; [now apply matches_plus_class|].
    apply matches_seq. exists (String "." ""), tail.
    split; [reflexivity|].
    split; [constructor; now apply char_eq | now apply matches_plus_class].
Qed.

Lemma isValidEmail_shape_witness : isValidEmail "amina@example.com" = true.
Proof.
  apply isValidEmail_shape. exists "amina", "example", "com".
  repeat split; discriminate.
Defined.

Lemma phone_shape (number : string) :
  isValidPhone number = true
  <-> exists sign first rest,
        cleanPhone number = sign +:+ String first rest
        /\ (sign = "" \/ sign = "+")
        /\ nonZeroDigit first = true
        /\ all digit rest = true
        /\ (7 <= String.length rest <= 14)%nat.
Proof.
  unfold isValidPhone, phoneRegex. rewrite test_spec, matches_seq. split.
  - intros (sign & rest1 & Hclean & Hsign & Hrest1).
    apply matches_seq in Hrest1 as (first & rest & -> & Hfirst & Hrest).
    apply matches_class in Hfirst as (c & -> & Hc).
    apply matches_between_class in Hrest as [Hlen Hall]; [|lia].
    apply matches_opt in Hsign.
    exists sign, c, rest. split; [exact Hclean|]. split; [|auto].
    destruct Hsign as [->|Hplus]; [now left|]. right.
    apply matches_class in Hplus as (c' & -> & Hc'). apply char_eq in Hc'. now subst.
  - intros (sign & first & rest & Hclean & Hsign & Hfirst & Hall & Hlen).
    exists sign, (String first rest). split; [exact Hclean|]. split.
    + apply matches_opt. destruct Hsign as [->| ->]; [now left|]. right.
      constructor. now apply char_eq.
    + apply matches_seq. exists (String first ""), rest. split; [reflexivity|].
      split; [now constructor|]. apply matches_between_class; [lia | auto].
Qed.

(** A phone number passes [isValidPhone] exactly when, once spaces,
    hyphens and parentheses are taken out, it is an optional "+", a digit
    from 1 to 9 and then 7 to 14 more digits; what is taken out is all of
    the punctuation, wherever it stands. *)
Theorem isValidPhone_shape (number : string) :
  (isValidPhone number = true
   <-> exists sign first rest,
         cleanPhone number = sign +:+ String first rest
         /\ (sign = "" \/ sign = "+")
         /\ nonZeroDigit first = true
         /\ all digit rest = true
         /\ (7 <= String.length rest <= 14)%nat)
  /\ all (fun c => negb (phonePunctuation c)) (cleanPhone number) = true.
Proof.
  split; [apply phone_shape|].
  unfold cleanPhone. induction number as [|c rest IH]; cbn; [reflexivity|].
  destruct (phonePunctuation c) eqn:Hc; cbn; [exact IH | now rewrite Hc].
Qed.

Lemma isValidPhone_shape_witness :
  isValidPhone "+256 (700) 123-456" = true
  /\ cleanPhone "+256 (700) 123-456" = "+256700123456".
Proof.
  split; [|reflexivity].
  destruct (isValidPhone_shape "+256 (700) 123-456") as [[_ Hvalid] _].
  apply Hvalid. exists "+", "2"%char, "56700123456".
  repeat split; cbn; try reflexivity; try lia. now right.
Defined.

(** *** The whole form *)

Lemma flag_size (condition : bool) (field text : string) (m : gmap string string) :
  size (flag condition field text m) = 0%nat <-> condition = false /\ size m = 0%nat.
Proof.
  unfold flag. destruct condition.
  - split; [|intros [[=] _]]. intros Hsize.
    apply map_size_empty_iff in Hsize. now apply insert_non_empty in Hsize.
  - tauto.
Qed.

Lemma trim_empty (s : string) : JS.trim s = "" -> all JS.is_space s = true.
Proof.
  unfold JS.trim. induction s as [|c s IH]; cbn; [reflexivity|].
  destruct (JS.is_space c) eqn:Hc; cbn; [exact IH|].
  destruct (JS.trimEnd s); [rewrite Hc|]; discriminate.
Qed.

Lemma cleanPhone_blank (s : string) : all JS.is_space s = true -> cleanPhone s = "".
Proof.
  unfold cleanPhone. induction s as [|c s IH]; cbn; [reflexivity|].
  intros Hall. apply andb_true_iff in Hall as [Hc Hall].
  unfold phonePunctuation. rewrite Hc. cbn. now apply IH.
Qed.

Lemma truthy_length (s : string) : (6 <= String.length s)%nat -> JS.truthy_string s = true.
Proof. destruct s; cbn; [lia | reflexivity]. Qed.

Lemma truthy_trimmed (s : string) :
  JS.truthy_string (JS.trim s) = true -> JS.truthy_string s = true.
Proof. now destruct s. Qed.

Lemma form_accepted (formData : FormData) :
  snd (validateForm formData) = true
  <-> (JS.trim (firstName formData) <> ""
       /\ all letterOrSpace (JS.trim (firstName formData)) = true)
      /\ (JS.trim (lastName formData) <> ""
          /\ all letterOrSpace (JS.trim (lastName formData)) = true)
      /\ isValidEmail (JS.trim (email formData)) = true
      /\ isValidPhone (phone formData) = true
      /\ (6 <= String.length (password formData))%nat
      /\ some digit (password formData) = true
      /\ some letter (password formData) = true
      /\ confirmPassword formData = password formData.
Proof.
  unfold validateForm. cbn [snd]. rewrite Nat.eqb_eq, !flag_size, map_size_empty.
  rewrite <- !matches_plus_class, <- !matches_contains_class, <- !test_spec.
  fold nameRegex hasNumberRegex hasLetterRegex.
  set (first := JS.trim (firstName formData)).
  set (last := JS.trim (lastName formData)).
  set (mail := JS.trim (email formData)).
  assert (Hname : Regex.test nameRegex "" = false) by reflexivity.
  assert (Hmail : isValidEmail "" = false) by reflexivity.
  assert (Hphone : Regex.test phoneRegex "" = false) by reflexivity.
  split.
  - intros (H13 & H12 & H11 & H10 & H9 & H8 & H7 & H6 & H5 & H4 & H3 & H2 & H1 & _).
    apply negb_false_iff in H1, H2, H3, H4, H5, H6.
    rewrite (truthy_trimmed _ H1) in H12. rewrite (truthy_trimmed _ H2) in H13.
    rewrite (truthy_trimmed _ H3) in H7. rewrite (truthy_trimmed _ H4) in H11.
    rewrite H5 in H8, H9, H10. rewrite H6 in H10.
    rewrite ?andb_true_l in H7, H8, H9, H10, H11, H12, H13.
    apply negb_false_iff in H7, H11, H12, H13.
    apply Nat.ltb_ge in H8. pose proof H8 as H8'. apply Nat.leb_le in H8'.
    rewrite H8' in H9. rewrite andb_true_l in H9. apply orb_false_iff in H9 as [Hn Hl].
    apply negb_false_iff in Hn, Hl, H10. apply String.eqb_eq in H10.
    repeat split; auto.
  - intros (Hfirst & Hlast & Hemail & Hvalid & Hlen & Hn & Hl & Hconfirm).
    assert (Hpw : JS.truthy_string (password formData) = true) by now apply truthy_length.
    rewrite Hconfirm, Hpw, Hfirst, Hlast, Hemail, Hvalid, Hn, Hl, String.eqb_refl.
    assert (H6 : (String.length (password formData) <? 6)%nat = false)
      by now apply Nat.ltb_ge.
    rewrite H6.
    assert (Tfirst : JS.truthy_string first = true)
      by (destruct first; [rewrite Hname in Hfirst; discriminate | reflexivity]).
    assert (Tlast : JS.truthy_string last = true)
      by (destruct last; [rewrite Hname in Hlast; discriminate | reflexivity]).
    assert (Tmail : JS.truthy_string mail = true)
      by (destruct mail; [rewrite Hmail in Hemail; discriminate | reflexivity]).
    assert (Tphone : JS.truthy_string (JS.trim (phone formData)) = true).
    { destruct (JS.trim (phone formData)) eqn:E; [|reflexivity].
      apply trim_empty, cleanPhone_blank in E.
      unfold isValidPhone in Hvalid. rewrite E, Hphone in Hvalid. discriminate. }
    rewrite Tfirst, Tlast, Tmail, Tphone. cbn [negb orb].
    rewrite ?andb_false_r. repeat split; reflexivity.
Qed.

(** [validateForm] accepts a form exactly when both names, trimmed, are
    non-empty runs of letters and white space, the trimmed e-mail and the
    phone pass their tests, the password has at least 6 characters with a
    digit and a letter among them, and the confirmation equals the
    password; it shows no error exactly when it accepts. *)
Theorem validateForm_accepts_iff (formData : FormData) :
  (snd (validateForm formData) = true
   <-> (JS.trim (firstName formData) <> ""
        /\ all letterOrSpace (JS.trim (firstName formData)) = true)
       /\ (JS.trim (lastName formData) <> ""
           /\ all letterOrSpace (JS.trim (lastName formData)) = true)
       /\ isValidEmail (JS.trim (email formData)) = true
       /\ isValidPhone (phone formData) = true
       /\ (6 <= String.length (password formData))%nat
       /\ some digit (password formData) = true
       /\ some letter (password formData) = true
       /\ confirmPassword formData = password formData)
  /\ (snd (validateForm formData) = true <-> fst (validateForm formData) = ∅).
Proof.
  split; [apply form_accepted|].
  unfold validateForm. cbn [fst snd]. rewrite Nat.eqb_eq. apply map_size_empty_iff.
Qed.

Lemma validateForm_accepts_iff_witness :
  let weak := mkFormData "amina@example.com" "secret" "secret" "Amina" "Okello"
                         "+256700123456" customer "" in
  snd (validateForm sampleForm) = true
  /\ fst (validateForm sampleForm) = ∅
  /\ snd (validateForm weak) = false.
Proof.
  intros weak.
  destruct (validateForm_accepts_iff sampleForm) as [[_ Haccepts] [Hquiet _]].
  assert (Haccepted : snd (validateForm sampleForm) = true).
  { apply Haccepts. repeat split; try reflexivity; try discriminate.
    change (6 <= 8)%nat. lia. }
  split; [exact Haccepted|]. split; [exact (Hquiet Haccepted)|].
  destruct (validateForm_accepts_iff weak) as [[Hneeds _] _].
  destruct (snd (validateForm weak)) eqn:Hweak; [|reflexivity].
  destruct (Hneeds eq_refl) as (_ & _ & _ & _ & _ & Hdigit & _).
  discriminate Hdigit.
Defined.

(** *** Sending the form *)

(** [handleSignup] calls the API only for a form [validateForm] accepts;
    a rejected form shows at least one error and sends nothing.  For an
    accepted form it makes one POST to /users, without an Authorization
    header, whose body is the cleaned data: the password as typed, the
    names trimmed (non-empty, letters and white space only), the phone
    reduced to an optional "+" and 8 to 15 digits, and the address trimmed
    or left out when blank. *)
Theorem handleSignup_sends_cleaned_data
    (toLowerCase : string -> string)
    (fetch : FetchCall -> JS.Result Response) (JSON_stringify : Payload -> string)
    (formData : FormData) (sent : list FetchCall) :
  let cleaned := cleanedData toLowerCase formData in
  (snd (validateForm formData) = false ->
   snd (handleSignup toLowerCase fetch JSON_stringify formData) = None
   /\ fst (handleSignup toLowerCase fetch JSON_stringify formData) <> ∅)
  /\ (snd (validateForm formData) = true ->
      (exists run,
          snd (handleSignup toLowerCase fetch JSON_stringify formData) = Some run
          /\ snd (run sent)
             = fetchCall "/users"
                 (mkRequestInit (Some "POST") ∅
                    (Some (JSON_stringify (RegisterPayload cleaned)))) :: sent)
      /\ reg_password cleaned = password formData
      /\ (reg_firstName cleaned <> "" /\ all letterOrSpace (reg_firstName cleaned) = true)
      /\ (reg_lastName cleaned <> "" /\ all letterOrSpace (reg_lastName cleaned) = true)
      /\ (exists sign first rest,
             reg_phone cleaned = sign +:+ String first rest
             /\ (sign = "" \/ sign = "+")
             /\ all digit (String first rest) = true
             /\ (8 <= String.length (String first rest) <= 15)%nat)
      /\ reg_address cleaned <> Some "").
Proof.
  cbn zeta. unfold handleSignup. split.
  - intros Hrejected.
    assert (Hshown : fst (validateForm formData) <> ∅).
    { intros Hnone. unfold validateForm in *. cbn [fst snd] in *.
      apply map_size_empty_iff in Hnone. apply Nat.eqb_neq in Hrejected. contradiction. }
    destruct (validateForm formData) as [errors valid]. cbn in *. subst valid. auto.
  - intros Haccepted.
    pose proof (proj1 (form_accepted formData) Haccepted)
      as (Hfirst & Hlast & _ & Hphone & _).
    destruct (validateForm formData) as [errors valid]. cbn in Haccepted. subst valid.
    split; [|split; [reflexivity|]].
    { eexists. split; [reflexivity|]. unfold createUser. apply ApiSpec.request_sends_one. }
    split; [exact Hfirst|]. split; [exact Hlast|]. split.
    + apply phone_shape in Hphone as (sign & first & rest & Hclean & Hsign & Hd & Hall & Hlen).
      exists sign, first, rest. split; [exact Hclean|]. split; [exact Hsign|].
      cbn. split; [|lia]. rewrite Hall, andb_true_r.
      unfold nonZeroDigit, digit in *. apply andb_true_iff in Hd as [Hlow Hhigh].
      apply andb_true_iff. split; [|exact Hhigh].
      apply N.leb_le in Hlow. apply N.leb_le. lia.
    + cbn. destruct (JS.trim (address formData)); cbn; discriminate.
Qed.

Lemma handleSignup_sends_cleaned_data_witness :
  let lower := fun _ : string => "amina@example.com" in
  reg_phone (cleanedData lower sampleForm) = "+256700123456"
  /\ (exists run,
         snd (handleSignup lower (answering 201 (Returned (JObject []))) (fun _ => "{}")
                           sampleForm) = Some run
         /\ snd (run [])
            = [fetchCall "/users" (mkRequestInit (Some "POST") ∅ (Some "{}"))]).
Proof.
  intros lower. split; [reflexivity|].
  destruct (handleSignup_sends_cleaned_data
              lower (answering 201 (Returned (JObject []))) (fun _ => "{}") sampleForm [])
    as [_ Haccepted].
  destruct Haccepted as (Hrun & _); [reflexivity | exact Hrun].
Defined.

End SignupSpec.
